(** * OMR answer evaluation: the scoring engine of the processing function

    A shallow embedding of [evaluateResponses] and the helpers it calls
    ([getSubjectForQuestion], the [answerKeys] table) from the Netlify
    OMR-processing function, and of [evaluateAnswers], the scoring
    routine of the Express server, which takes its subject map as an
    argument. Around them: [simulateOMRProcessing] and the two Netlify
    handlers, with the values of [Math.random], the clock and the
    outcome of [multipart.parse] as arguments; and the routes of the
    server that create, delete and re-key an exam, as functions from
    the exam table to a response and the new table.

    JavaScript values are modelled as follows.
    - Strings are [string]: sequences of code units below 256 (the
      Latin-1 block), on which [trim] and [toLowerCase] are total and
      table-free.
    - Counters are [nat]; the two percentages are IEEE binary64 numbers
      ([float]), computed with the kernel's primitive operations.
    - Objects used as dictionaries are [gmap string _].
    - A call either returns a value or throws: [Outcome]. *)

From Stdlib Require Import Floats ZArith Ascii String.
From stdpp Require Import gmap strings list fin_maps pretty.

Open Scope string_scope.
Open Scope nat_scope.
Open Scope list_scope.

(** ** JavaScript runtime primitives *)

Module Js.

(** The exceptions the modelled code can raise: a [TypeError], reading
    a property of [undefined], and a [RangeError], creating an array of
    an invalid length. *)
Inductive Error : Set := TypeError | RangeError.

Inductive Outcome (A : Type) : Type :=
| Returned (a : A)
| Thrown (e : Error).
Arguments Returned {A} a.
Arguments Thrown {A} e.

#[global] Instance Outcome_ret : MRet Outcome := @Returned.

#[global] Instance Outcome_bind : MBind Outcome := fun A B k m =>
  match m with
  | Returned a => k a
  | Thrown e => Thrown e
  end.

(** [WhiteSpace] and [LineTerminator] code units below 256: TAB, LF,
    VT, FF, CR, SP and NBSP. *)
Definition isWhiteSpace (c : ascii) : bool :=
  let n := nat_of_ascii c in
  ((9 <=? n) && (n <=? 13)) || (n =? 32) || (n =? 160).

Fixpoint trimStart (s : string) : string :=
  match s with
  | EmptyString => EmptyString
  | String c s' => if isWhiteSpace c then trimStart s' else s
  end.

Fixpoint trimEnd (s : string) : string :=
  match s with
  | EmptyString => EmptyString
  | String c s' =>
      match trimEnd s' with
      | EmptyString => if isWhiteSpace c then EmptyString else String c EmptyString
      | t => String c t
      end
  end.

(** [String.prototype.trim] *)
Definition trim (s : string) : string := trimEnd (trimStart s).

(** Lower-case mapping of one code unit: A-Z, and the Latin-1 capitals
    U+00C0..U+00DE except the multiplication sign U+00D7. *)
Definition toLowerCaseUnit (c : ascii) : ascii :=
  let n := nat_of_ascii c in
  if ((65 <=? n) && (n <=? 90)) || ((192 <=? n) && (n <=? 222) && negb (n =? 215))
  then ascii_of_nat (n + 32)
  else c.

(** [String.prototype.toLowerCase] *)
Fixpoint toLowerCase (s : string) : string :=
  match s with
  | EmptyString => EmptyString
  | String c s' => String (toLowerCaseUnit c) (toLowerCase s')
  end.

(** [Array.prototype.includes] on an array of strings. *)
Definition includes (l : list string) (x : string) : bool :=
  bool_decide (x ∈ l).

(** [a === b] on two strings. *)
Definition strictEq (a b : string) : bool := bool_decide (a = b).

(** [Number.prototype.toString] on a non-negative integer. *)
Definition toString (n : nat) : string := pretty n.

(** A counter as the binary64 number it is at run time. *)
Definition number (n : nat) : float :=
  PrimFloat.of_uint63 (Uint63.of_Z (Z.of_nat n)).

(** The property names every object literal inherits from
    [Object.prototype]; each holds a function or an object, hence a
    truthy value. *)
Definition Object_prototype : list string :=
  [ "constructor"; "__defineGetter__"; "__defineSetter__"; "hasOwnProperty";
    "__lookupGetter__"; "__lookupSetter__"; "isPrototypeOf";
    "propertyIsEnumerable"; "toString"; "valueOf"; "__proto__";
    "toLocaleString" ].

Definition inherited (name : string) : bool :=
  bool_decide (name ∈ Object_prototype).

End Js.

Export Js.

(** ** Data model *)

(** One entry of [specialCases]. *)
Record SpecialCase : Type := { acceptedAnswers : list string }.

(** What [evaluateResponses] reads of the object found under
    [answerKeys[examSet]]: its [rawAnswers] and [specialCases]
    properties, [None] standing for [undefined]. *)
Record AnswerKey : Type := {
  rawAnswers : option (list string);
  specialCases : option (gmap string SpecialCase)
}.

(** An entry of [results.detailedResults]. *)
Record DetailedResult : Type := {
  questionNumber : nat;
  subject : string;
  studentAnswer : string;
  correctAnswer : option string;
  isCorrect : bool;
  status : string
}.

(** An entry of a subject's [questions] array. *)
Module SubjectQuestion.
Record t : Type := {
  questionNumber : nat;
  isCorrect : bool;
  status : string
}.
End SubjectQuestion.

(** A value of [results.subjectScores]. *)
Module SubjectScore.
Record t : Type := {
  correct : nat;
  total : nat;
  percentage : float;
  questions : list SubjectQuestion.t
}.

Definition incrCorrect (s : t) : t :=
  {| correct := S (correct s); total := total s;
     percentage := percentage s; questions := questions s |}.

Definition pushQuestion (q : SubjectQuestion.t) (s : t) : t :=
  {| correct := correct s; total := total s;
     percentage := percentage s; questions := questions s ++ [q] |}.

Definition setPercentage (s : t) : t :=
  {| correct := correct s; total := total s;
     percentage := (Js.number (correct s) / Js.number (total s) * 100)%float;
     questions := questions s |}.
End SubjectScore.

(** [results.summary] *)
Module Summary.
Record t : Type := {
  correct : nat;
  incorrect : nat;
  unanswered : nat
}.
End Summary.

(** The [results] object of [evaluateResponses]. *)
Record EvaluationResult : Type := {
  totalQuestions : nat;
  totalScore : nat;
  percentage : float;
  subjectScores : gmap string SubjectScore.t;
  detailedResults : list DetailedResult;
  summary : Summary.t
}.

(** The three statements [results.summary.unanswered++],
    [results.summary.incorrect++] and the pair [results.totalScore++;
    results.summary.correct++], and the two writes to the other fields. *)
Definition incrUnanswered (r : EvaluationResult) : EvaluationResult :=
  {| totalQuestions := totalQuestions r; totalScore := totalScore r;
     percentage := percentage r; subjectScores := subjectScores r;
     detailedResults := detailedResults r;
     summary := {| Summary.correct := Summary.correct (summary r);
                   Summary.incorrect := Summary.incorrect (summary r);
                   Summary.unanswered := S (Summary.unanswered (summary r)) |} |}.

Definition incrIncorrect (r : EvaluationResult) : EvaluationResult :=
  {| totalQuestions := totalQuestions r; totalScore := totalScore r;
     percentage := percentage r; subjectScores := subjectScores r;
     detailedResults := detailedResults r;
     summary := {| Summary.correct := Summary.correct (summary r);
                   Summary.incorrect := S (Summary.incorrect (summary r));
                   Summary.unanswered := Summary.unanswered (summary r) |} |}.

Definition incrScore (r : EvaluationResult) : EvaluationResult :=
  {| totalQuestions := totalQuestions r; totalScore := S (totalScore r);
     percentage := percentage r; subjectScores := subjectScores r;
     detailedResults := detailedResults r;
     summary := {| Summary.correct := S (Summary.correct (summary r));
                   Summary.incorrect := Summary.incorrect (summary r);
                   Summary.unanswered := Summary.unanswered (summary r) |} |}.

Definition setSubjectScores (scores : gmap string SubjectScore.t)
    (r : EvaluationResult) : EvaluationResult :=
  {| totalQuestions := totalQuestions r; totalScore := totalScore r;
     percentage := percentage r; subjectScores := scores;
     detailedResults := detailedResults r; summary := summary r |}.

Definition pushDetailed (d : DetailedResult) (r : EvaluationResult) : EvaluationResult :=
  {| totalQuestions := totalQuestions r; totalScore := totalScore r;
     percentage := percentage r; subjectScores := subjectScores r;
     detailedResults := detailedResults r ++ [d]; summary := summary r |}.

Definition setPercentage (p : float) (r : EvaluationResult) : EvaluationResult :=
  {| totalQuestions := totalQuestions r; totalScore := totalScore r;
     percentage := p; subjectScores := subjectScores r;
     detailedResults := detailedResults r; summary := summary r |}.

(** ** The answer keys *)

Definition setA : AnswerKey := {|
  rawAnswers := Some [
    (* Python (1-20) *)
    "b"; "a"; "c"; "d"; "b"; "a"; "c"; "b"; "d"; "a";
    "c"; "b"; "d"; "a"; "c"; "a"; "d"; "b"; "c"; "a";
    (* EDA (21-40) *)
    "a"; "c"; "b"; "d"; "a"; "c"; "b"; "a"; "d"; "c";
    "b"; "a"; "d"; "c"; "b"; "a"; "c"; "d"; "b"; "a";
    (* SQL (41-60) *)
    "c"; "a"; "b"; "d"; "c"; "a"; "b"; "c"; "d"; "a";
    "b"; "c"; "a"; "d"; "b"; "c"; "a"; "d"; "b"; "a";
    (* PowerBI (61-80) *)
    "d"; "b"; "a"; "c"; "d"; "b"; "a"; "d"; "c"; "b";
    "a"; "d"; "c"; "b"; "a"; "d"; "c"; "b"; "a"; "d";
    (* Statistics (81-100) *)
    "a"; "d"; "c"; "b"; "a"; "d"; "c"; "a"; "b"; "d";
    "c"; "a"; "b"; "d"; "c"; "a"; "b"; "d"; "c"; "a"
  ];
  specialCases := Some {[
    "16" := {| acceptedAnswers := ["a"; "b"; "c"; "d"] |};
    "59" := {| acceptedAnswers := ["a"; "b"] |}
  ]}
|}.

Definition setB : AnswerKey := {|
  rawAnswers := Some [
    (* Python (1-20) *)
    "c"; "b"; "d"; "a"; "c"; "b"; "d"; "c"; "a"; "b";
    "d"; "c"; "a"; "b"; "d"; "b"; "a"; "c"; "d"; "b";
    (* EDA (21-40) *)
    "b"; "d"; "c"; "a"; "b"; "d"; "c"; "b"; "a"; "d";
    "c"; "b"; "a"; "d"; "c"; "b"; "d"; "a"; "c"; "b";
    (* SQL (41-60) *)
    "d"; "b"; "c"; "a"; "d"; "b"; "c"; "d"; "a"; "b";
    "c"; "d"; "b"; "a"; "c"; "d"; "b"; "a"; "c"; "b";
    (* PowerBI (61-80) *)
    "a"; "c"; "b"; "d"; "a"; "c"; "b"; "a"; "d"; "c";
    "b"; "a"; "d"; "c"; "b"; "a"; "d"; "c"; "b"; "a";
    (* Statistics (81-100) *)
    "b"; "a"; "d"; "c"; "b"; "a"; "d"; "b"; "c"; "a";
    "d"; "b"; "c"; "a"; "d"; "b"; "c"; "a"; "d"; "b"
  ];
  specialCases := Some {[
    "16" := {| acceptedAnswers := ["a"; "b"; "c"; "d"] |};
    "59" := {| acceptedAnswers := ["a"; "b"] |}
  ]}
|}.

(** The own properties of the [answerKeys] object literal. *)
Definition answerKeys : gmap string AnswerKey :=
  {[ "setA" := setA; "setB" := setB ]}.

(** A member of [Object.prototype] read as an answer key: a function or
    object with neither a [rawAnswers] nor a [specialCases] property. *)
Definition prototypeMember : AnswerKey :=
  {| rawAnswers := None; specialCases := None |}.

(** The property read [answerKeys[examSet]]: an own property, else one
    found along the prototype chain, else [undefined] ([None]). *)
Definition getProperty (o : gmap string AnswerKey) (name : string) : option AnswerKey :=
  match o !! name with
  | Some v => Some v
  | None => if Js.inherited name then Some prototypeMember else None
  end.

(** ** Subject lookup *)

Definition getSubjectForQuestion (questionNum : nat) : string :=
  if (1 <=? questionNum) && (questionNum <=? 20) then "Python"
  else if (21 <=? questionNum) && (questionNum <=? 40) then "EDA"
  else if (41 <=? questionNum) && (questionNum <=? 60) then "SQL"
  else if (61 <=? questionNum) && (questionNum <=? 80) then "PowerBI"
  else if (81 <=? questionNum) && (questionNum <=? 100) then "Statistics"
  else "Unknown".

(** ** The evaluation engine *)

Definition subjects : list string :=
  ["Python"; "EDA"; "SQL"; "PowerBI"; "Statistics"].

Definition initialResults : EvaluationResult := {|
  totalQuestions := 100;
  totalScore := 0;
  percentage := 0%float;
  subjectScores :=
    foldl (fun scores subject =>
             <[subject := {| SubjectScore.correct := 0;
                             SubjectScore.total := 20;
                             SubjectScore.percentage := 0%float;
                             SubjectScore.questions := [] |}]> scores)
          ∅ subjects;
  detailedResults := [];
  summary := {| Summary.correct := 0; Summary.incorrect := 0;
                Summary.unanswered := 0 |}
|}.

(** An update of [results.subjectScores[subject]]; the read of a
    property of [undefined] throws when the subject has no entry. *)
Definition updateSubject (f : SubjectScore.t -> SubjectScore.t) (subject : string)
    (r : EvaluationResult) : Outcome EvaluationResult :=
  match subjectScores r !! subject with
  | Some s => Returned (setSubjectScores (<[subject := f s]> (subjectScores r)) r)
  | None => Thrown TypeError
  end.

(** [!studentAnswer || studentAnswer.trim() === ""] *)
Definition isBlank (studentAnswer : string) : bool :=
  Js.strictEq studentAnswer "" || Js.strictEq (Js.trim studentAnswer) "".

(** The body of the [for] loop, at index [i]. The keys read from
    [specialCases] are the numerals ["1"] to ["100"] and those read from
    [results.subjectScores] are subject names: none is the name of an
    inherited property, so both reads are plain map lookups. *)
Definition evaluateQuestion (correctAnswers : option (list string))
    (specialCases : gmap string SpecialCase) (responses : list string)
    (results : EvaluationResult) (i : nat) : Outcome EvaluationResult :=
  let questionNum := i + 1 in
  let subject := getSubjectForQuestion questionNum in
  let studentAnswer := default "" (responses !! i) in
  correctAnswer ← match correctAnswers with
                  | Some answers => Returned (answers !! i)
                  | None => Thrown TypeError
                  end;
  '(isCorrect, status, results) ←
    (if isBlank studentAnswer
     then Returned (false, "unanswered", incrUnanswered results)
     else
       isCorrect ← match specialCases !! Js.toString questionNum with
                   | Some case =>
                       Returned (Js.includes (acceptedAnswers case)
                                             (Js.toLowerCase studentAnswer))
                   | None =>
                       match correctAnswer with
                       | Some answer =>
                           Returned (Js.strictEq (Js.toLowerCase studentAnswer)
                                                 (Js.toLowerCase answer))
                       | None => Thrown TypeError
                       end
                   end;
       if isCorrect : bool
       then results ← updateSubject SubjectScore.incrCorrect subject
                                    (incrScore results);
            Returned (true, "correct", results)
       else Returned (false, "incorrect", incrIncorrect results));
  let results :=
    pushDetailed {| questionNumber := questionNum;
                    subject := subject;
                    studentAnswer := studentAnswer;
                    correctAnswer := correctAnswer;
                    isCorrect := isCorrect;
                    status := status |} results in
  updateSubject
    (SubjectScore.pushQuestion
       {| SubjectQuestion.questionNumber := questionNum;
          SubjectQuestion.isCorrect := isCorrect;
          SubjectQuestion.status := status |})
    subject results.

(** [for (let i = ...; ...; i++) body]: the body run at each index of
    [indices] in turn, a throw ending the loop. *)
Fixpoint forLoop {St : Type} (body : St -> nat -> Outcome St) (indices : list nat)
    (s : St) : Outcome St :=
  match indices with
  | [] => Returned s
  | i :: rest => s' ← body s i; forLoop body rest s'
  end.

(** The statements after the loop: the two percentage computations. *)
Definition calculatePercentages (results : EvaluationResult) : EvaluationResult :=
  let results :=
    setPercentage (Js.number (totalScore results) / 100 * 100)%float results in
  setSubjectScores (SubjectScore.setPercentage <$> subjectScores results) results.

(** [evaluateResponses] once [correctAnswers] and [specialCases] are
    bound. *)
Definition evaluateWith (correctAnswers : option (list string))
    (specialCases : gmap string SpecialCase) (responses : list string)
    : Outcome EvaluationResult :=
  results ← forLoop (evaluateQuestion correctAnswers specialCases responses)
                    (seq 0 100) initialResults;
  Returned (calculatePercentages results).

(** [answerKeys[examSet] || answerKeys.setA]: every object is truthy,
    so only [undefined] falls back to [setA]. *)
Definition answerKeyOf (examSet : string) : AnswerKey :=
  default setA (getProperty answerKeys examSet).

(** [answerKey.specialCases || {}] *)
Definition specialCasesOf (examSet : string) : gmap string SpecialCase :=
  default ∅ (specialCases (answerKeyOf examSet)).

Definition evaluateResponses (responses : list string) (examSet : string)
    : Outcome EvaluationResult :=
  let answerKey := answerKeyOf examSet in
  let correctAnswers := rawAnswers answerKey in
  let specialCases := specialCasesOf examSet in
  evaluateWith correctAnswers specialCases responses.

(** The key selection of [simulateOMRProcessing], the producer of
    [detectedResponses] in the request handler:
    [answerKeys[examSet]?.rawAnswers || answerKeys.setA.rawAnswers]. *)
Definition simulatedCorrectAnswers (examSet : string) : option (list string) :=
  match getProperty answerKeys examSet ≫= rawAnswers with
  | Some answers => Some answers
  | None => rawAnswers setA
  end.

(** ** The scoring routine of the Express server *)

Module Server.

(** A value of [exam.subjects]. *)
Record SubjectInfo : Type := {
  start : nat;
  end_ : nat;
  count : nat
}.

(** An element of [detectedAnswers], as [detectOMRBubbles] builds it. *)
Record Bubble : Type := {
  questionNumber : nat;
  detectedAnswer : string;
  confidence : float;
  subject : string
}.

(** An entry of a subject's [questions] array. *)
Module Question.
Record t : Type := {
  questionNumber : nat;
  isCorrect : bool;
  studentAnswer : string;
  correctAnswer : string
}.
End Question.

Module SubjectScore.
Record t : Type := {
  correct : nat;
  total : nat;
  percentage : float;
  questions : list Question.t
}.

Definition pushQuestion (q : Question.t) (s : t) : t :=
  {| correct := correct s; total := total s;
     percentage := percentage s; questions := questions s ++ [q] |}.

Definition incrCorrect (s : t) : t :=
  {| correct := S (correct s); total := total s;
     percentage := percentage s; questions := questions s |}.

Definition setPercentage (s : t) : t :=
  {| correct := correct s; total := total s;
     percentage := (Js.number (correct s) / Js.number (total s) * 100)%float;
     questions := questions s |}.
End SubjectScore.

(** An element of the [evaluation] array. *)
Module Evaluated.
Record t : Type := {
  questionNumber : nat;
  subject : string;
  studentAnswer : string;
  correctAnswer : string;
  isCorrect : bool;
  confidence : float
}.
End Evaluated.

(** The object [evaluateAnswers] returns. [subjectScores] holds the own
    properties of that object and [subjectScoresPrototype] the object
    that an assignment to ["__proto__"] has made its prototype; [None]
    is [Object.prototype]. *)
Record Evaluation : Type := {
  score : nat;
  percentage : float;
  totalQuestions : nat;
  correctAnswers : nat;
  subjectScores : gmap string SubjectScore.t;
  subjectScoresPrototype : option SubjectScore.t;
  evaluation : list Evaluated.t
}.

(** The [for ... of Object.entries(exam.subjects)] search: the first
    segment that contains [questionNum], else the initial ['Unknown']. *)
Fixpoint findSubject (entries : list (string * SubjectInfo)) (questionNum : nat)
    : string :=
  match entries with
  | [] => "Unknown"
  | (subjectName, subjectInfo) :: rest =>
      if (start subjectInfo <=? questionNum) && (questionNum <=? end_ subjectInfo)
      then subjectName
      else findSubject rest questionNum
  end.

(** The two variables the [map] callback updates, [subjectScores] in
    two parts: its own properties, and the object that an assignment to
    ["__proto__"] has made its prototype, if any. *)
Record Acc : Type := {
  accCorrect : nat;
  accScores : gmap string SubjectScore.t;
  accPrototype : option SubjectScore.t
}.

(** [subjectScores[name]] as the callback reads it for an update: an
    own property, or under ["__proto__"] (the accessor of
    [Object.prototype]) the prototype installed. [None] stands for
    every other value: [undefined], [Object.prototype] itself or an
    inherited value, none of which has a [questions] array, so that the
    update throws. *)
Definition readScore (name : string) (acc : Acc) : option SubjectScore.t :=
  if Js.strictEq name "__proto__" then accPrototype acc
  else accScores acc !! name.

(** [subjectScores[name] = s], and the update in place of the object
    read under [name]. Assigning an object to ["__proto__"] replaces
    the prototype and adds no property; every other name, inherited
    ones included, gets an own property. *)
Definition writeScore (name : string) (s : SubjectScore.t) (acc : Acc) : Acc :=
  if Js.strictEq name "__proto__"
  then {| accCorrect := accCorrect acc;
          accScores := accScores acc;
          accPrototype := Some s |}
  else {| accCorrect := accCorrect acc;
          accScores := <[name := s]> (accScores acc);
          accPrototype := accPrototype acc |}.

(** The [map] callback at [(detected, index)]: the new element, and the
    updated [correctAnswers] and [subjectScores]. *)
Definition evaluateOne (answerKey : list string) (subjects : list (string * SubjectInfo))
    (acc : Acc) (detected : Bubble) (index : nat) : Outcome (Evaluated.t * Acc) :=
  answer ← match answerKey !! index with
           | Some answer => Returned answer
           | None => Thrown TypeError
           end;
  let isCorrect :=
    Js.strictEq (Js.toLowerCase (detectedAnswer detected)) (Js.toLowerCase answer) in
  let correctAnswers :=
    if isCorrect then S (accCorrect acc) else accCorrect acc in
  let questionNum := questionNumber detected in
  let subject := findSubject subjects questionNum in
  acc ←
    (if negb (Js.strictEq subject "Unknown")
     then match readScore subject acc with
          | Some s =>
              let s := SubjectScore.pushQuestion
                         {| Question.questionNumber := questionNum;
                            Question.isCorrect := isCorrect;
                            Question.studentAnswer := detectedAnswer detected;
                            Question.correctAnswer := answer |} s in
              let s := if isCorrect then SubjectScore.incrCorrect s else s in
              Returned (writeScore subject s acc)
          | None => Thrown TypeError
          end
     else Returned acc);
  Returned
    ({| Evaluated.questionNumber := questionNumber detected;
        Evaluated.subject := subject;
        Evaluated.studentAnswer := detectedAnswer detected;
        Evaluated.correctAnswer := answer;
        Evaluated.isCorrect := isCorrect;
        Evaluated.confidence := confidence detected |},
     {| accCorrect := correctAnswers;
        accScores := accScores acc;
        accPrototype := accPrototype acc |}).

(** [detectedAnswers.map(callback)], the callback run from [index] on. *)
Fixpoint mapFrom (answerKey : list string) (subjects : list (string * SubjectInfo))
    (detectedAnswers : list Bubble) (index : nat) (acc : Acc)
    : Outcome (list Evaluated.t * Acc) :=
  match detectedAnswers with
  | [] => Returned ([], acc)
  | detected :: rest =>
      '(e, acc) ← evaluateOne answerKey subjects acc detected index;
      '(es, acc) ← mapFrom answerKey subjects rest (S index) acc;
      Returned (e :: es, acc)
  end.

(** The first [forEach]: [subjectScores] with an entry for every
    subject of the table. *)
Definition initialise (entries : list (string * SubjectInfo)) : Acc :=
  foldl (fun acc entry =>
           writeScore entry.1
             {| SubjectScore.correct := 0;
                SubjectScore.total := count entry.2;
                SubjectScore.percentage := 0%float;
                SubjectScore.questions := [] |} acc)
        {| accCorrect := 0; accScores := ∅; accPrototype := None |}
        entries.

(** [subjects] is the value of [exam.subjects]: [None] when the exam
    has no such property (as the exams that [POST /api/exams] creates),
    on which [Object.keys] throws; else its entries, in [Object.entries]
    order. The last [forEach] runs over [Object.keys(subjectScores)],
    the own properties. *)
Definition evaluateAnswers (detectedAnswers : list Bubble) (answerKey : list string)
    (subjects : option (list (string * SubjectInfo))) : Outcome Evaluation :=
  entries ← match subjects with
            | Some entries => Returned entries
            | None => Thrown TypeError
            end;
  '(evaluation, acc) ←
    mapFrom answerKey entries detectedAnswers 0 (initialise entries);
  let subjectScores := SubjectScore.setPercentage <$> accScores acc in
  let correctAnswers := accCorrect acc in
  Returned
    {| score := correctAnswers;
       percentage :=
         (Js.number correctAnswers / Js.number (length answerKey) * 100)%float;
       totalQuestions := length answerKey;
       correctAnswers := correctAnswers;
       subjectScores := subjectScores;
       subjectScoresPrototype := accPrototype acc;
       evaluation := evaluation |}.

End Server.

(** * The request handlers around the engine *)

(** ** The simulated detection *)

Module Simulation.

(** [Math.floor(x)] for a finite [x] that is zero or positive; [None]
    for a negative, infinite or NaN [x], whose floor is no array index. *)
Definition floorIndex (x : float) : option Z :=
  match Prim2SF x with
  | S754_zero _ => Some 0%Z
  | S754_finite false m e => Some (Z.shiftl (Z.pos m) e)
  | _ => None
  end.

(** The array read [l[k]] at such an index: [undefined] out of range. *)
Definition at_index {A : Type} (l : list A) (k : option Z) : option A :=
  match k with
  | Some k => if (k <? Z.of_nat (length l))%Z then l !! Z.to_nat k else None
  | None => None
  end.

Definition options : list string := ["a"; "b"; "c"; "d"].

(** The threshold [0.85] as the binary64 number the literal denotes. *)
Definition accuracy : float := 0x1.b333333333333p-1%float.

(** One iteration of the loop of [simulateOMRProcessing]. [random k] is
    the value of the [k]-th call of [Math.random] and [drawn] the number
    of calls made so far; the result is the response pushed and the new
    count. *)
Definition simulateQuestion (random : nat -> float) (correctAnswers : list string)
    (state : list (option string) * nat) (i : nat)
    : Outcome (list (option string) * nat) :=
  let '(responses, drawn) := state in
  let correctAnswer := correctAnswers !! i in
  if PrimFloat.ltb (random drawn) accuracy
  then Returned (responses ++ [correctAnswer], S drawn)
  else
    let wrongOptions := filter (fun opt => Some opt <> correctAnswer) options in
    let index :=
      floorIndex (random (S drawn) * Js.number (length wrongOptions)) in
    Returned (responses ++ [at_index wrongOptions index], S (S drawn)).

(** [simulateOMRProcessing(examSet)]: the responses, an [undefined]
    entry being [None], and the number of random values consumed. *)
Definition simulateOMRProcessing (random : nat -> float) (examSet : string)
    : Outcome (list (option string) * nat) :=
  match simulatedCorrectAnswers examSet with
  | Some correctAnswers =>
      forLoop (simulateQuestion random correctAnswers) (seq 0 100) ([], 0)
  | None => Thrown TypeError
  end.

End Simulation.

(** ** The OMR-processing handler *)

Module Processing.

(** A file of the parsed form data, as the handler reads it. *)
Record File : Type := { filename : option string }.

(** The value [multipart.parse(event)] resolves to. *)
Record Parsed : Type := {
  files : option (list File);
  examSet : option string
}.

(** The object passed to [JSON.stringify] on success. *)
Record ProcessingResults : Type := {
  success : bool;
  imageProcessed : string;
  resultExamSet : string;
  detectedResponses : list (option string);
  evaluation : EvaluationResult;
  processingMethod : string;
  processingTime : float;
  timestamp : string
}.

(** The bodies of the four responses, before serialisation. The error
    of the last one is kept as the value caught, [None] standing for a
    rejection of [multipart.parse]. *)
Inductive Body : Type :=
| Empty
| MethodNotAllowed
| Processed (results : ProcessingResults)
| Failed (error : option Js.Error) (timestamp : string).

Record Response : Type := {
  statusCode : nat;
  body : Body
}.

(** [x || fallback] on a string that may be [undefined]. *)
Definition orElse (x : option string) (fallback : string) : string :=
  match x with
  | Some s => if Js.strictEq s "" then fallback else s
  | None => fallback
  end.

(** The array handed to [evaluateResponses]. It reads an entry only as
    [responses[i] || ""], for which [undefined] and [""] are the same. *)
Definition asResponses (detected : list (option string)) : list string :=
  default "" <$> detected.

(** [exports.handler]. [parsed] is the outcome of [multipart.parse]
    ([None] when it rejects), [random] the values of [Math.random] and
    [now] the value of [new Date().toISOString()] when the response is
    built. *)
Definition handler (httpMethod : string) (parsed : option Parsed)
    (random : nat -> float) (now : string) : Response :=
  if Js.strictEq httpMethod "OPTIONS"
  then {| statusCode := 200; body := Empty |}
  else if negb (Js.strictEq httpMethod "POST")
  then {| statusCode := 405; body := MethodNotAllowed |}
  else
    match parsed with
    | None => {| statusCode := 500; body := Failed None now |}
    | Some result =>
        let examSet := orElse (examSet result) "setA" in
        match Simulation.simulateOMRProcessing random examSet with
        | Thrown e => {| statusCode := 500; body := Failed (Some e) now |}
        | Returned (detectedResponses, _) =>
            match evaluateResponses (asResponses detectedResponses) examSet with
            | Thrown e => {| statusCode := 500; body := Failed (Some e) now |}
            | Returned evaluation =>
                {| statusCode := 200;
                   body := Processed
                     {| success := true;
                        imageProcessed :=
                          orElse match files result with
                                 | Some (file :: _) => filename file
                                 | _ => None
                                 end "uploaded-image.jpg";
                        resultExamSet := examSet;
                        detectedResponses := detectedResponses;
                        evaluation := evaluation;
                        processingMethod := "JavaScript Simulation";
                        processingTime := 2%float;
                        timestamp := now |} |}
            end
        end
    end.

End Processing.

(** ** The file-upload handler *)

Module Upload.

(** A file of the parsed form data; [content] is a buffer. *)
Record File : Type := {
  filename : option string;
  content : option (list Byte.byte);
  contentType : option string
}.

(** The value [multipart.parse(event)] resolves to. *)
Record Parsed : Type := {
  files : option (list File);
  examId : option string
}.

(** An element of [processedFiles]. *)
Module Processed.
Record t : Type := {
  id : string;
  filename : string;
  originalname : string;
  path : string;
  size : nat;
  mimetype : string;
  examId : string
}.
End Processed.

(** The bodies of the four responses, before serialisation. *)
Inductive Body : Type :=
| Empty
| MethodNotAllowed
| Uploaded (message : string) (files : list Processed.t) (examId : string)
    (timestamp : string)
| Failed (timestamp : string).

Record Response : Type := {
  statusCode : nat;
  body : Body
}.

(** The callback of [files.map]. [clock index] is the value of
    [Date.now()] in the call for [index]. *)
Definition processFile (clock : nat -> nat) (examId : string) (index : nat)
    (file : File) : Processed.t :=
  let name :=
    Processing.orElse (filename file)
      ("uploaded-file-" +:+ Js.toString index +:+ ".jpg") in
  {| Processed.id :=
       "file-" +:+ Js.toString (clock index) +:+ "-" +:+ Js.toString index;
     Processed.filename := name;
     Processed.originalname := name;
     Processed.path := "/uploads/" +:+ name;
     Processed.size :=
       match content file with
       | Some bytes => length bytes
       | None => 0
       end;
     Processed.mimetype := Processing.orElse (contentType file) "image/jpeg";
     Processed.examId := examId |}.

(** [exports.handler] of the upload function; [parsed] is the outcome
    of [multipart.parse], [None] when it rejects. *)
Definition handler (httpMethod : string) (parsed : option Parsed)
    (clock : nat -> nat) (now : string) : Response :=
  if Js.strictEq httpMethod "OPTIONS"
  then {| statusCode := 200; body := Empty |}
  else if negb (Js.strictEq httpMethod "POST")
  then {| statusCode := 405; body := MethodNotAllowed |}
  else
    match parsed with
    | None => {| statusCode := 500; body := Failed now |}
    | Some result =>
        let files := default [] (files result) in
        let examId := Processing.orElse (examId result) "default-exam" in
        let processedFiles := imap (processFile clock examId) files in
        {| statusCode := 200;
           body := Uploaded
             ("Successfully uploaded " +:+ Js.toString (length processedFiles)
              +:+ " file(s)")
             processedFiles examId now |}
    end.

End Upload.

(** ** The exam table of the Express server *)

Module Exams.

(** An element of [exams]. The exam the server starts with has a
    [subjects] table; an exam created through the API has none. *)
Record Exam : Type := {
  id : string;
  name : string;
  subject : string;
  totalQuestions : nat;
  answerKey : list string;
  subjects : option (list (string * Server.SubjectInfo));
  createdAt : string;
  status : string
}.

Definition setAnswerKey (answerKey : list string) (e : Exam) : Exam :=
  {| id := id e; name := name e; subject := subject e;
     totalQuestions := totalQuestions e; answerKey := answerKey;
     subjects := subjects e; createdAt := createdAt e; status := status e |}.

(** The bodies of the responses, before serialisation. *)
Inductive Body : Type :=
| ErrorMessage (error : string)
| Message (message : string)
| Created (exam : Exam).

Record Response : Type := {
  statusCode : nat;
  body : Body
}.

(** [exams.findIndex(e => e.id === id)]; [None] stands for [-1]. *)
Definition findIndex (id' : string) (exams : list Exam) : option nat :=
  fst <$> list_find (fun e => id e = id') exams.

(** [DELETE /api/exams/:id] *)
Definition deleteExam (id' : string) (exams : list Exam) : Response * list Exam :=
  match findIndex id' exams with
  | None => ({| statusCode := 404; body := ErrorMessage "Exam not found" |}, exams)
  | Some examIndex =>
      ({| statusCode := 200; body := Message "Exam deleted successfully" |},
       delete examIndex exams)
  end.

(** [PUT /api/exams/:id/answerkey]; the body's [answerKey] is [None]
    when it is not an array. *)
Definition updateAnswerKey (id' : string) (answerKey : option (list string))
    (exams : list Exam) : Response * list Exam :=
  match findIndex id' exams with
  | None => ({| statusCode := 404; body := ErrorMessage "Exam not found" |}, exams)
  | Some examIndex =>
      match answerKey with
      | None =>
          ({| statusCode := 400;
              body := ErrorMessage "Answer key must be an array" |}, exams)
      | Some answerKey =>
          ({| statusCode := 200;
              body := Message "Answer key updated successfully" |},
           alter (setAnswerKey answerKey) examIndex exams)
      end
  end.

(** The fields [POST /api/exams] reads from the body; [None] is an
    absent field. *)
Record NewExam : Type := {
  newName : option string;
  newSubject : option string;
  newTotalQuestions : option nat;
  newStatus : option string
}.

(** [!x] on a string or a number that may be [undefined]. *)
Definition missing (x : option string) : bool :=
  match x with
  | Some s => Js.strictEq s ""
  | None => true
  end.

Definition missingNumber (x : option nat) : bool :=
  match x with
  | Some n => n =? 0
  | None => true
  end.

(** [Array.from({ length: n }, () => 'A')]: no array has a length of
    [2^32] or more, and creating one throws a [RangeError]. *)
Definition arrayOfA (n : nat) : Outcome (list string) :=
  if (Z.of_nat n <? 2 ^ 32)%Z then Returned (replicate n "A")
  else Thrown RangeError.

(** [POST /api/exams]; [now] is [Date.now()] and [nowIso] the value of
    [new Date().toISOString()]. A throw happens before [exams.push] and
    before any response is sent: the table is left as it was. *)
Definition createExam (b : NewExam) (now : nat) (nowIso : string)
    (exams : list Exam) : Outcome (Response * list Exam) :=
  if missing (newName b) || missing (newSubject b)
     || missingNumber (newTotalQuestions b)
  then Returned
         ({| statusCode := 400; body := ErrorMessage "Missing required fields" |},
          exams)
  else
    answerKey ← arrayOfA (default 0 (newTotalQuestions b));
    let newExam :=
      {| id := Js.toString now;
         name := default "" (newName b);
         subject := default "" (newSubject b);
         totalQuestions := default 0 (newTotalQuestions b);
         answerKey := answerKey;
         subjects := None;
         createdAt := nowIso;
         status := default "draft" (newStatus b) |} in
    Returned
      ({| statusCode := 201; body := Created newExam |}, exams ++ [newExam]).

End Exams.

(** * Reference values and invariants used in the proofs *)

(** Every code unit of [s] is white space; the empty string included. *)
Definition allWhiteSpace (s : string) : bool :=
  forallb Js.isWhiteSpace (list_ascii_of_string s).

(** The mark the loop body gives at index [i] when the key has an entry
    there. *)
Definition markAt (answers : list string) (specialCases : gmap string SpecialCase)
    (responses : list string) (i : nat) : bool :=
  let studentAnswer := default "" (responses !! i) in
  if isBlank studentAnswer then false
  else match specialCases !! Js.toString (i + 1) with
       | Some case =>
           Js.includes (acceptedAnswers case) (Js.toLowerCase studentAnswer)
       | None =>
           match answers !! i with
           | Some answer =>
               Js.strictEq (Js.toLowerCase studentAnswer) (Js.toLowerCase answer)
           | None => false
           end
       end.

(** The status that goes with the mark. *)
Definition statusAt (answers : list string) (specialCases : gmap string SpecialCase)
    (responses : list string) (i : nat) : string :=
  if isBlank (default "" (responses !! i)) then "unanswered"
  else if markAt answers specialCases responses i then "correct"
  else "incorrect".

(** The record the loop body pushes at index [i]. *)
Definition detailAt (answers : list string) (specialCases : gmap string SpecialCase)
    (responses : list string) (i : nat) : DetailedResult :=
  {| questionNumber := i + 1;
     subject := getSubjectForQuestion (i + 1);
     studentAnswer := default "" (responses !! i);
     correctAnswer := answers !! i;
     isCorrect := markAt answers specialCases responses i;
     status := statusAt answers specialCases responses i |}.

(** The entry pushed onto the subject's [questions] with [d]. *)
Definition subjectQuestionOf (d : DetailedResult) : SubjectQuestion.t :=
  {| SubjectQuestion.questionNumber := questionNumber d;
     SubjectQuestion.isCorrect := isCorrect d;
     SubjectQuestion.status := status d |}.

(** [results] after the loop body has recorded [d] under the subject
    entry [s]. *)
Definition recorded (d : DetailedResult) (s : SubjectScore.t)
    (results : EvaluationResult) : EvaluationResult :=
  let s1 := if isCorrect d then SubjectScore.incrCorrect s else s in
  let counted :=
    if String.eqb (status d) "unanswered" then incrUnanswered results
    else if isCorrect d then incrScore results
    else incrIncorrect results in
  pushDetailed d
    (setSubjectScores
       (<[subject d := SubjectScore.pushQuestion (subjectQuestionOf d) s1]>
          (subjectScores results))
       counted).

(** The number of records with status [st]. *)
Definition countStatus (st : string) (ds : list DetailedResult) : nat :=
  length (filter (fun d => status d = st) ds).

(** The number of correct records of subject [subj]. *)
Definition countSubjectCorrect (subj : string) (ds : list DetailedResult) : nat :=
  length (filter (fun d => subject d = subj ∧ status d = "correct") ds).

(** The sum of [correct] over the subjects of [subjectScores]. *)
Definition sumCorrect (scores : gmap string SubjectScore.t) : nat :=
  map_fold (fun _ s acc => SubjectScore.correct s + acc) 0 scores.

(** A record whose [status] agrees with its [isCorrect] flag. *)
Definition wellMarked (d : DetailedResult) : Prop :=
  (isCorrect d = true ∧ status d = "correct")
  ∨ (isCorrect d = false ∧ status d = "incorrect")
  ∨ (isCorrect d = false ∧ status d = "unanswered").

(** The loop invariant: every counter of [results] is the count of the
    records pushed so far that it stands for. *)
Record Consistent (r : EvaluationResult) : Prop := {
  cons_total : totalQuestions r = 100;
  cons_score : totalScore r = countStatus "correct" (detailedResults r);
  cons_correct :
    Summary.correct (summary r) = countStatus "correct" (detailedResults r);
  cons_incorrect :
    Summary.incorrect (summary r) = countStatus "incorrect" (detailedResults r);
  cons_unanswered :
    Summary.unanswered (summary r) = countStatus "unanswered" (detailedResults r);
  cons_sum : sumCorrect (subjectScores r) = totalScore r;
  cons_dom : dom (subjectScores r) = list_to_set subjects;
  cons_subject : forall subj s,
    subjectScores r !! subj = Some s ->
    SubjectScore.total s = 20
    ∧ SubjectScore.correct s = countSubjectCorrect subj (detailedResults r)
    ∧ SubjectScore.questions s =
        subjectQuestionOf <$> filter (fun d => subject d = subj) (detailedResults r)
}.

(** The four letters of the answer sheets. *)
Definition choices : list string := ["a"; "b"; "c"; "d"].

(** What the proofs use of a key: 100 answers, and only the four letters
    in the key and in its special cases. *)
Record KeyFacts (key : AnswerKey) : Prop := {
  kf_answers : exists answers,
    rawAnswers key = Some answers ∧ length answers = 100
    ∧ Forall (fun a => a ∈ choices) answers;
  kf_cases : exists cases,
    specialCases key = Some cases
    ∧ forall k case, cases !! k = Some case ->
        Forall (fun a => a ∈ choices) (acceptedAnswers case)
}.

(** The answer key of set A submitted as the response array. *)
Definition perfectSheetA : list string := default [] (rawAnswers setA).

(** The answer key of set B submitted as the response array. *)
Definition perfectSheetB : list string := default [] (rawAnswers setB).

(** Some segment of the subject map contains [questionNum]. *)
Definition covered (subjects : list (string * Server.SubjectInfo))
    (questionNum : nat) : bool :=
  existsb (fun entry => (Server.start entry.2 <=? questionNum)
                        && (questionNum <=? Server.end_ entry.2))
          subjects.

(** Every subject of the map has its object in [subjectScores]. *)
Definition initialised (subjects : list (string * Server.SubjectInfo))
    (acc : Server.Acc) : Prop :=
  forall entry, entry ∈ subjects -> is_Some (Server.readScore entry.1 acc).

(** A two-question sheet whose subject map covers question 2 only. *)
Definition partialMap : list (string * Server.SubjectInfo) :=
  [("Python", {| Server.start := 2; Server.end_ := 2; Server.count := 1 |})].

(** The two detected answers of that sheet. *)
Definition twoBubbles : list Server.Bubble :=
  [ {| Server.questionNumber := 1; Server.detectedAnswer := "A";
       Server.confidence := 0.5%float; Server.subject := "Unknown" |};
    {| Server.questionNumber := 2; Server.detectedAnswer := "B";
       Server.confidence := 0.5%float; Server.subject := "Python" |} ].

(** ** Reference values for [evaluateAnswers] *)

(** The [subjects] table of the exam the server starts with, in
    [Object.entries] order. *)
Definition defaultSubjects : list (string * Server.SubjectInfo) :=
  [ ("Python", {| Server.start := 1; Server.end_ := 20; Server.count := 20 |});
    ("EDA", {| Server.start := 21; Server.end_ := 40; Server.count := 20 |});
    ("SQL", {| Server.start := 41; Server.end_ := 60; Server.count := 20 |});
    ("PowerBI", {| Server.start := 61; Server.end_ := 80; Server.count := 20 |});
    ("Statistics",
     {| Server.start := 81; Server.end_ := 100; Server.count := 20 |}) ].

(** The [exams] table the server starts with; [answerKey] is the value
    of [loadAnswerKeys()] and [createdAt] that of
    [new Date().toISOString()]. *)
Definition initialExams (answerKey : list string) (createdAt : string)
    : list Exams.Exam :=
  [ {| Exams.id := "1";
       Exams.name := "Innomatics Placement Assessment - Set A";
       Exams.subject := "Data Science & AI/ML";
       Exams.totalQuestions := 100;
       Exams.answerKey := answerKey;
       Exams.subjects := Some defaultSubjects;
       Exams.createdAt := createdAt;
       Exams.status := "active" |} ].

(** The sum of [correct] over the subjects of the server's
    [subjectScores]. *)
Definition serverSumCorrect (scores : gmap string Server.SubjectScore.t) : nat :=
  map_fold (fun _ s acc => Server.SubjectScore.correct s + acc) 0 scores.

(** The entry the [map] callback returns for [detected] at [index]. *)
Definition entryAt (answer : string) (subjects : list (string * Server.SubjectInfo))
    (detected : Server.Bubble) : Server.Evaluated.t :=
  {| Server.Evaluated.questionNumber := Server.questionNumber detected;
     Server.Evaluated.subject :=
       Server.findSubject subjects (Server.questionNumber detected);
     Server.Evaluated.studentAnswer := Server.detectedAnswer detected;
     Server.Evaluated.correctAnswer := answer;
     Server.Evaluated.isCorrect :=
       Js.strictEq (Js.toLowerCase (Server.detectedAnswer detected))
                   (Js.toLowerCase answer);
     Server.Evaluated.confidence := Server.confidence detected |}.

(** The number of correct entries; of those credited to an own
    property of [subjectScores]; and of those credited to its
    prototype. *)
Definition countCorrect (es : list Server.Evaluated.t) : nat :=
  length (filter (fun e => Server.Evaluated.isCorrect e = true) es).

Definition countCredited (es : list Server.Evaluated.t) : nat :=
  length (filter (fun e => Server.Evaluated.isCorrect e = true
                           ∧ Server.Evaluated.subject e <> "Unknown"
                           ∧ Server.Evaluated.subject e <> "__proto__") es).

Definition countInherited (es : list Server.Evaluated.t) : nat :=
  length (filter (fun e => Server.Evaluated.isCorrect e = true
                           ∧ Server.Evaluated.subject e = "__proto__") es).

(** The [correct] counter of the prototype of [subjectScores], 0 when
    none was installed. *)
Definition prototypeCorrect (prototype : option Server.SubjectScore.t) : nat :=
  from_option Server.SubjectScore.correct 0 prototype.

(** What the [map] callback keeps true of [subjectScores]: the totals
    set at the start, and an untouched entry under ["Unknown"]. *)
Definition sameTotals (scores0 scores : gmap string Server.SubjectScore.t) : Prop :=
  forall name s, scores !! name = Some s ->
    exists s0, scores0 !! name = Some s0
      ∧ Server.SubjectScore.total s = Server.SubjectScore.total s0.

(** The [evaluation] array for a key that covers the sheet. *)
Definition entriesOf (answerKey : list string)
    (subjects : list (string * Server.SubjectInfo))
    (detectedAnswers : list Server.Bubble) : list Server.Evaluated.t :=
  zip_with (fun answer detected => entryAt answer subjects detected)
           answerKey detectedAnswers.

(** ** Reference values for the simulation *)

(** The number of responses that differ from the key's answer. *)
Definition mismatches (responses : list (option string)) (key : list string) : nat :=
  length (filter (fun p => p.1 <> Some p.2) (zip responses key)).

(** A simulated response: one of the four options, or [undefined]. *)
Definition optionOrUndefined (x : option string) : Prop :=
  match x with
  | Some s => s ∈ Simulation.options
  | None => True
  end.

(** * Properties *)

(** ** White space and letter case *)

Lemma trimStart_empty s : Js.trimStart s = "" <-> allWhiteSpace s = true.
Proof.
  unfold allWhiteSpace. induction s as [|c s IH]; simpl; [done|].
  destruct (Js.isWhiteSpace c); simpl; [done|]. split; discriminate.
Qed.

Lemma trimStart_head c t s : Js.trimStart s = String c t -> Js.isWhiteSpace c = false.
Proof.
  induction s as [|c' s IH]; simpl; [discriminate|].
  destruct (Js.isWhiteSpace c') eqn:E; [done|]. intros [= -> _]. done.
Qed.

Lemma trimEnd_head c t : Js.isWhiteSpace c = false -> Js.trimEnd (String c t) <> "".
Proof.
  intros Hc. simpl. destruct (Js.trimEnd t); [rewrite Hc|]; discriminate.
Qed.

Lemma trim_empty s : Js.trim s = "" <-> allWhiteSpace s = true.
Proof.
  rewrite <- trimStart_empty. unfold Js.trim.
  destruct (Js.trimStart s) as [|c t] eqn:E; [done|].
  split; [|discriminate]. intros H. exfalso.
  eapply trimEnd_head; [|exact H]. by eapply trimStart_head.
Qed.

Lemma isBlank_allWhiteSpace s : isBlank s = allWhiteSpace s.
Proof.
  unfold isBlank, Js.strictEq.
  destruct (allWhiteSpace s) eqn:E.
  - apply trim_empty in E. rewrite E.
    rewrite (bool_decide_eq_true_2 ("" = "")) by done. by rewrite orb_true_r.
  - assert (Js.trim s <> "") as Hn.
    { intros H. apply trim_empty in H. congruence. }
    assert (s <> "") as Hs by (intros ->; by apply Hn).
    by rewrite !bool_decide_eq_false_2.
Qed.

Lemma lower_unit_choice c :
  String (Js.toLowerCaseUnit c) "" ∈ choices -> Js.isWhiteSpace c = false.
Proof.
  unfold choices. rewrite !elem_of_cons, elem_of_nil.
  destruct c as [[] [] [] [] [] [] [] []];
    first [reflexivity | cbn; intuition discriminate].
Qed.

Lemma toLowerCase_choice_not_blank s :
  Js.toLowerCase s ∈ choices -> isBlank s = false.
Proof.
  unfold choices. destruct s as [|c [|c' s']].
  - cbn. rewrite !elem_of_cons, elem_of_nil. intuition discriminate.
  - intros H. rewrite isBlank_allWhiteSpace. unfold allWhiteSpace. cbn.
    by rewrite (lower_unit_choice c H).
  - cbn. rewrite !elem_of_cons, elem_of_nil. intuition discriminate.
Qed.

Lemma toLowerCase_choice a : a ∈ choices -> Js.toLowerCase a = a.
Proof.
  unfold choices. rewrite !elem_of_cons, elem_of_nil.
  intros [->|[->|[->|[->|[]]]]]; reflexivity.
Qed.

(** ** Subject lookup *)

Lemma getSubjectForQuestion_covered i :
  1 <= i <= 100 -> getSubjectForQuestion i ∈ subjects.
Proof.
  intros Hi.
  assert (Forall (fun q => getSubjectForQuestion q ∈ subjects) (seq 1 100)) as Hall.
  { apply (bool_decide_unpack _). vm_compute. reflexivity. }
  rewrite Forall_forall in Hall. apply Hall, elem_of_seq. lia.
Qed.

Lemma getSubjectForQuestion_unknown i :
  getSubjectForQuestion i = "Unknown" <-> ~ (1 <= i <= 100).
Proof.
  split.
  - intros Hu Hi. apply getSubjectForQuestion_covered in Hi.
    rewrite Hu in Hi. revert Hi. apply (bool_decide_unpack _). vm_compute. reflexivity.
  - intros Hi. destruct (decide (i = 0)) as [->|Hz]; [reflexivity|].
    unfold getSubjectForQuestion.
    rewrite (proj2 (Nat.leb_gt i 20)), (proj2 (Nat.leb_gt i 40)),
      (proj2 (Nat.leb_gt i 60)), (proj2 (Nat.leb_gt i 80)),
      (proj2 (Nat.leb_gt i 100)) by lia.
    by rewrite !andb_false_r.
Qed.

Lemma questions_per_subject subj :
  subj ∈ subjects ->
  length (filter (fun i => getSubjectForQuestion (i + 1) = subj) (seq 0 100)) = 20.
Proof.
  unfold subjects. rewrite !elem_of_cons, elem_of_nil.
  intros [->|[->|[->|[->|[->|[]]]]]]; vm_compute; reflexivity.
Qed.

(** ** Counting records *)

Lemma countStatus_cons st d ds :
  countStatus st (d :: ds) =
  (if decide (status d = st) then 1 else 0) + countStatus st ds.
Proof. unfold countStatus. rewrite filter_cons. by case_decide. Qed.

Lemma countStatus_app st ds1 ds2 :
  countStatus st (ds1 ++ ds2) = countStatus st ds1 + countStatus st ds2.
Proof. unfold countStatus. by rewrite filter_app, length_app. Qed.

Lemma countStatus_snoc st ds d :
  countStatus st (ds ++ [d]) =
  countStatus st ds + (if decide (status d = st) then 1 else 0).
Proof.
  unfold countStatus. rewrite filter_app, length_app. f_equal.
  rewrite filter_cons, filter_nil. by case_decide.
Qed.

Lemma countSubjectCorrect_snoc subj ds d :
  countSubjectCorrect subj (ds ++ [d]) =
  countSubjectCorrect subj ds
  + (if decide (subject d = subj ∧ status d = "correct") then 1 else 0).
Proof.
  unfold countSubjectCorrect. rewrite filter_app, length_app. f_equal.
  rewrite filter_cons, filter_nil. by case_decide.
Qed.

Lemma countStatus_partition ds :
  Forall wellMarked ds ->
  countStatus "correct" ds + countStatus "incorrect" ds
  + countStatus "unanswered" ds = length ds.
Proof.
  induction 1 as [|d ds Hd _ IH]; [reflexivity|].
  rewrite !countStatus_cons. cbn [length].
  destruct Hd as [[_ Hs]|[[_ Hs]|[_ Hs]]]; rewrite Hs;
    repeat case_decide; try discriminate; try done; lia.
Qed.

(** The record at position [i] counts once, under its own status. *)
Lemma countStatus_delete st ds i d :
  ds !! i = Some d ->
  countStatus st ds =
  countStatus st (delete i ds) + (if decide (status d = st) then 1 else 0).
Proof.
  intros Hi. rewrite <- (take_drop_middle ds i d Hi) at 1.
  rewrite delete_take_drop, !countStatus_app, countStatus_cons. lia.
Qed.

Lemma countStatus_all st ds :
  Forall (fun d => status d = st) ds -> countStatus st ds = length ds.
Proof.
  induction 1 as [|d ds Hd _ IH]; [reflexivity|].
  rewrite countStatus_cons, decide_True by done. cbn [length]. lia.
Qed.

Lemma sumCorrect_insert_fresh k v (m : gmap string SubjectScore.t) :
  m !! k = None -> sumCorrect (<[k := v]> m) = SubjectScore.correct v + sumCorrect m.
Proof.
  intros Hk. unfold sumCorrect.
  rewrite map_fold_insert_L; [done| |done]. intros. lia.
Qed.

Lemma sumCorrect_insert k v v' (m : gmap string SubjectScore.t) :
  m !! k = Some v ->
  sumCorrect (<[k := v']> m) + SubjectScore.correct v
  = sumCorrect m + SubjectScore.correct v'.
Proof.
  intros Hk.
  rewrite <- (insert_delete_id m k v Hk) at 2.
  rewrite <- (insert_delete_eq m k v').
  rewrite !sumCorrect_insert_fresh by apply lookup_delete_eq. lia.
Qed.

Lemma sumCorrect_fmap (g : SubjectScore.t -> SubjectScore.t)
    (m : gmap string SubjectScore.t) :
  (forall s, SubjectScore.correct (g s) = SubjectScore.correct s) ->
  sumCorrect (g <$> m) = sumCorrect m.
Proof.
  intros Hg. induction m as [|k v m Hk IH] using map_ind.
  - by rewrite fmap_empty.
  - rewrite fmap_insert, !sumCorrect_insert_fresh, Hg, IH; [done|done|].
    by rewrite lookup_fmap, Hk.
Qed.

(** ** The loop invariant *)

Lemma initialResults_consistent : Consistent initialResults.
Proof.
  split; try reflexivity.
  intros subj s. unfold initialResults, subjects.
  cbn [subjectScores detailedResults foldl].
  rewrite !lookup_insert. repeat case_decide; intros [= <-]; done.
Qed.

Lemma recorded_consistent d s r :
  Consistent r -> wellMarked d -> subjectScores r !! subject d = Some s ->
  Consistent (recorded d s r).
Proof.
  intros [Ht Hsc Hc Hi Hu Hsum Hd Hs] Hw Hl.
  assert (sumCorrect (<[subject d := SubjectScore.pushQuestion (subjectQuestionOf d)
             (if isCorrect d then SubjectScore.incrCorrect s else s)]>
             (subjectScores r))
          = (if isCorrect d then 1 else 0) + totalScore r) as Hsum'.
  { pose proof (sumCorrect_insert (subject d) s
      (SubjectScore.pushQuestion (subjectQuestionOf d)
         (if isCorrect d then SubjectScore.incrCorrect s else s)) _ Hl) as Hi'.
    rewrite Hsum in Hi'. destruct (isCorrect d); cbn in Hi'; lia. }
  destruct (Hs _ _ Hl) as (Hs1 & Hs2 & Hs3).
  assert (dom (<[subject d := SubjectScore.pushQuestion (subjectQuestionOf d)
             (if isCorrect d then SubjectScore.incrCorrect s else s)]>
             (subjectScores r)) = list_to_set subjects) as Hdom.
  { rewrite dom_insert_L, <- Hd. apply elem_of_dom_2 in Hl.
    apply subseteq_union_1_L. by apply singleton_subseteq_l. }
  assert (forall subj s',
    <[subject d := SubjectScore.pushQuestion (subjectQuestionOf d)
             (if isCorrect d then SubjectScore.incrCorrect s else s)]>
             (subjectScores r) !! subj = Some s' ->
    SubjectScore.total s' = 20
    ∧ SubjectScore.correct s' = countSubjectCorrect subj (detailedResults r ++ [d])
    ∧ SubjectScore.questions s' =
        subjectQuestionOf <$> filter (fun d => subject d = subj) (detailedResults r ++ [d]))
    as Hsub.
  { intros subj s'. rewrite countSubjectCorrect_snoc.
    rewrite filter_app, filter_cons, filter_nil, fmap_app.
    destruct (decide (subject d = subj)) as [Hsubj|Hsubj].
    - subst subj. rewrite lookup_insert_eq. intros [= <-].
      destruct Hw as [[Hw1 Hw2]|[[Hw1 Hw2]|[Hw1 Hw2]]]; rewrite Hw1, Hw2; cbn;
        rewrite Hs1, Hs2, Hs3.
      + rewrite decide_True by done. repeat split; lia.
      + rewrite decide_False by (intros [_ ?]; done). repeat split; lia.
      + rewrite decide_False by (intros [_ ?]; done). repeat split; lia.
    - rewrite lookup_insert_ne by done.
      intros Hl'. destruct (Hs _ _ Hl') as (? & ? & ?).
      rewrite decide_False by (intros [? ?]; done).
      cbn. rewrite app_nil_r. repeat split; try done. lia. }
  unfold recorded.
  destruct Hw as [[Hw1 Hw2]|[[Hw1 Hw2]|[Hw1 Hw2]]]; rewrite Hw1 in *; rewrite Hw2;
    cbn [String.eqb Ascii.eqb Bool.eqb];
    (split; cbn -[countStatus countSubjectCorrect];
     rewrite ?countStatus_snoc, ?Hw2; repeat case_decide; try done; try lia).
Qed.

Lemma recorded_detailedResults d s r :
  detailedResults (recorded d s r) = detailedResults r ++ [d].
Proof.
  unfold recorded. destruct (String.eqb _ _), (isCorrect d); reflexivity.
Qed.

Lemma recorded_percentage d s r : percentage (recorded d s r) = percentage r.
Proof.
  unfold recorded. destruct (String.eqb _ _), (isCorrect d); reflexivity.
Qed.

Lemma calculatePercentages_consistent r :
  Consistent r -> Consistent (calculatePercentages r).
Proof.
  intros [Ht Hsc Hc Hi Hu Hsum Hd Hs]. split; cbn; try done.
  - by rewrite sumCorrect_fmap.
  - by rewrite dom_fmap_L.
  - intros subj s. rewrite lookup_fmap.
    destruct (subjectScores r !! subj) as [s0|] eqn:Hl; [|discriminate].
    intros [= <-]. cbn. by apply Hs.
Qed.

Create HintDb results discriminated.

#[export] Hint Resolve initialResults_consistent recorded_consistent
  calculatePercentages_consistent : results.

(** ** The loop on a key with an answer for every question *)

Section Loop.

Context (answers : list string) (specialCases : gmap string SpecialCase)
  (responses : list string).

(** The two ways the body ends once the subject entry is known: the
    push onto the subject's [questions] alone, or after the increment
    of its [correct] counter. *)
Ltac push_question Hs :=
  unfold updateSubject; cbn; rewrite Hs; reflexivity.

Ltac incr_then_push_question Hs :=
  unfold updateSubject at 2; cbn; rewrite Hs; cbn;
  unfold updateSubject; cbn; rewrite lookup_insert_eq; cbn;
  rewrite insert_insert_eq; reflexivity.

Lemma evaluateQuestion_recorded results i a s :
  answers !! i = Some a ->
  subjectScores results !! getSubjectForQuestion (i + 1) = Some s ->
  evaluateQuestion (Some answers) specialCases responses results i =
  Returned (recorded (detailAt answers specialCases responses i) s results).
Proof.
  intros Ha Hs.
  unfold evaluateQuestion, recorded, detailAt, statusAt, markAt. simpl.
  rewrite Ha. cbn [mbind Outcome_bind].
  destruct (isBlank (default "" (responses !! i))) eqn:Hb.
  - cbn. push_question Hs.
  - destruct (specialCases !! Js.toString (i + 1)) as [case|] eqn:Hc; cbn.
    + destruct (Js.includes _ _) eqn:Hi; cbn;
        [incr_then_push_question Hs | push_question Hs].
    + destruct (Js.strictEq _ _) eqn:Hi; cbn;
        [incr_then_push_question Hs | push_question Hs].
Qed.

Lemma detailAt_wellMarked i :
  wellMarked (detailAt answers specialCases responses i).
Proof.
  unfold wellMarked, detailAt, statusAt, markAt. cbn.
  destruct (isBlank _); [by right; right|].
  destruct (specialCases !! _) as [case|].
  - destruct (Js.includes _ _); [by left|by right; left].
  - destruct (answers !! i); [|by right; left].
    destruct (Js.strictEq _ _); [by left|by right; left].
Qed.

Lemma detailAt_all_wellMarked indices :
  Forall wellMarked (detailAt answers specialCases responses <$> indices).
Proof.
  apply Forall_fmap, Forall_forall. intros i _. apply detailAt_wellMarked.
Qed.

Lemma detailAt_lookup i :
  i < 100 ->
  (detailAt answers specialCases responses <$> seq 0 100) !! i
  = Some (detailAt answers specialCases responses i).
Proof.
  intros Hi. rewrite list_lookup_fmap, lookup_seq_lt by done. reflexivity.
Qed.

Lemma detailAt_blank i :
  isBlank (default "" (responses !! i)) = true ->
  status (detailAt answers specialCases responses i) = "unanswered"
  ∧ isCorrect (detailAt answers specialCases responses i) = false.
Proof.
  intros Hb. unfold detailAt, statusAt, markAt. cbn. by rewrite Hb.
Qed.

Lemma status_correct_iff i :
  status (detailAt answers specialCases responses i) = "correct"
  <-> isCorrect (detailAt answers specialCases responses i) = true.
Proof.
  destruct (detailAt_wellMarked i)
    as [[H1 H2]|[[H1 H2]|[H1 H2]]]; rewrite H1, H2; split; congruence.
Qed.

(** The mark of the reference record, when the response is present. *)
Lemma markAt_special i s case :
  responses !! i = Some s ->
  specialCases !! Js.toString (i + 1) = Some case ->
  isBlank s = false ->
  markAt answers specialCases responses i
  = Js.includes (acceptedAnswers case) (Js.toLowerCase s).
Proof.
  intros Hs Hc Hb. unfold markAt. rewrite Hs. cbn. by rewrite Hb, Hc.
Qed.

Lemma markAt_plain i s a :
  responses !! i = Some s ->
  specialCases !! Js.toString (i + 1) = None ->
  answers !! i = Some a ->
  isBlank s = false ->
  markAt answers specialCases responses i
  = Js.strictEq (Js.toLowerCase s) (Js.toLowerCase a).
Proof.
  intros Hs Hc Ha Hb. unfold markAt. rewrite Hs. cbn. by rewrite Hb, Hc, Ha.
Qed.

Lemma markAt_blank i s :
  responses !! i = Some s -> isBlank s = true ->
  markAt answers specialCases responses i = false.
Proof. intros Hs Hb. unfold markAt. rewrite Hs. cbn. by rewrite Hb. Qed.

Lemma countSubjectCorrect_all indices subj :
  Forall (fun d => status d = "correct")
         (detailAt answers specialCases responses <$> indices) ->
  countSubjectCorrect subj (detailAt answers specialCases responses <$> indices)
  = length (filter (fun i => getSubjectForQuestion (i + 1) = subj) indices).
Proof.
  unfold countSubjectCorrect.
  induction indices as [|i indices IH]; [reflexivity|].
  rewrite fmap_cons. intros [Hi Hall]%Forall_cons.
  rewrite !filter_cons. specialize (IH Hall).
  destruct (decide (getSubjectForQuestion (i + 1) = subj)) as [Hs|Hs].
  - rewrite decide_True by (split; [exact Hs|exact Hi]).
    cbn [length]. by rewrite IH.
  - rewrite decide_False by (intros [? _]; by apply Hs). exact IH.
Qed.

Lemma detailAt_subject_filter indices subj :
  length (filter (fun d => subject d = subj)
                 (detailAt answers specialCases responses <$> indices))
  = length (filter (fun i => getSubjectForQuestion (i + 1) = subj) indices).
Proof.
  induction indices as [|i indices IH]; [reflexivity|].
  rewrite fmap_cons, !filter_cons. cbn [subject detailAt].
  case_decide; cbn [length]; by rewrite IH.
Qed.

(** The loop over any list of indices below 100 that the key covers. *)
Lemma forLoop_evaluateQuestion indices r0 :
  Consistent r0 ->
  Forall (fun i => i < 100 ∧ i < length answers) indices ->
  exists r,
    forLoop (evaluateQuestion (Some answers) specialCases responses) indices r0
      = Returned r
    ∧ Consistent r
    ∧ detailedResults r =
        detailedResults r0 ++ (detailAt answers specialCases responses <$> indices)
    ∧ percentage r = percentage r0.
Proof.
  intros Hc Hall. revert r0 Hc.
  induction Hall as [|i indices [Hi Hlen] _ IH]; intros r0 Hc.
  - exists r0. cbn. by rewrite app_nil_r.
  - destruct (lookup_lt_is_Some_2 answers i Hlen) as [a Ha].
    assert (is_Some (subjectScores r0 !! getSubjectForQuestion (i + 1))) as [s Hs].
    { apply elem_of_dom. rewrite (cons_dom _ Hc).
      apply elem_of_list_to_set, getSubjectForQuestion_covered. lia. }
    cbn [forLoop].
    rewrite (evaluateQuestion_recorded _ _ _ _ Ha Hs).
    cbn [mbind Outcome_bind].
    destruct (IH (recorded (detailAt answers specialCases responses i) s r0))
      as (r & Hr & Hcr & Hdr & Hpr).
    { auto using detailAt_wellMarked with results. }
    exists r. split; [done|]. split; [done|]. split.
    + rewrite Hdr, recorded_detailedResults, fmap_cons. by rewrite <- app_assoc.
    + by rewrite Hpr, recorded_percentage.
Qed.

(** The engine on a key that has an answer for each of the 100
    questions: it returns, and the result is the list of the per-question
    reference records with every counter consistent with it. *)
Lemma evaluateWith_returns :
  100 <= length answers ->
  exists r,
    evaluateWith (Some answers) specialCases responses = Returned r
    ∧ Consistent r
    ∧ detailedResults r = detailAt answers specialCases responses <$> seq 0 100
    ∧ percentage r = (Js.number (totalScore r) / 100 * 100)%float
    ∧ (forall subj s, subjectScores r !! subj = Some s ->
         SubjectScore.percentage s =
           (Js.number (SubjectScore.correct s) / Js.number (SubjectScore.total s)
            * 100)%float).
Proof.
  intros Hlen. unfold evaluateWith.
  destruct (forLoop_evaluateQuestion (seq 0 100)
              initialResults initialResults_consistent) as (r & Hr & Hc & Hd & _).
  { apply Forall_forall. intros i Hi%elem_of_seq. lia. }
  rewrite Hr. cbn [mbind Outcome_bind].
  exists (calculatePercentages r). split; [done|].
  split; [by apply calculatePercentages_consistent|].
  split; [exact Hd|]. split; [done|].
  intros subj s. cbn. rewrite lookup_fmap.
  destruct (subjectScores r !! subj) as [s0|]; [|discriminate].
  by intros [= <-].
Qed.

End Loop.

(** ** The loop reads only the entries below 100 *)

Lemma evaluateQuestion_ext correctAnswers specialCases responses1 responses2 results i :
  default "" (responses1 !! i) = default "" (responses2 !! i) ->
  evaluateQuestion correctAnswers specialCases responses1 results i
  = evaluateQuestion correctAnswers specialCases responses2 results i.
Proof. intros He. unfold evaluateQuestion. by rewrite He. Qed.

Lemma forLoop_ext {St : Type} (body1 body2 : St -> nat -> Outcome St) indices s :
  (forall i s', i ∈ indices -> body1 s' i = body2 s' i) ->
  forLoop body1 indices s = forLoop body2 indices s.
Proof.
  revert s. induction indices as [|i indices IH]; intros s Hb; [reflexivity|].
  cbn [forLoop]. rewrite Hb by apply list_elem_of_here.
  destruct (body2 s i) as [s'|e]; [|reflexivity].
  cbn [mbind Outcome_bind]. apply IH. intros j s'' Hj.
  apply Hb. by apply list_elem_of_further.
Qed.

Lemma evaluateWith_ext correctAnswers specialCases responses1 responses2 :
  (forall i, i < 100 -> default "" (responses1 !! i) = default "" (responses2 !! i)) ->
  evaluateWith correctAnswers specialCases responses1
  = evaluateWith correctAnswers specialCases responses2.
Proof.
  intros He. unfold evaluateWith. f_equal.
  apply forLoop_ext. intros i s Hi%elem_of_seq.
  apply evaluateQuestion_ext, He. lia.
Qed.

Lemma take_100_agrees (responses : list string) i :
  i < 100 -> default "" (take 100 responses !! i) = default "" (responses !! i).
Proof. intros Hi. by rewrite lookup_take_lt. Qed.

(** ** Resolution of the exam set *)

Lemma answerKeys_lookup examSet :
  answerKeys !! examSet =
  if decide (examSet = "setA") then Some setA
  else if decide (examSet = "setB") then Some setB
  else None.
Proof.
  unfold answerKeys. rewrite lookup_insert.
  case_decide as Ha; subst.
  { by rewrite decide_True. }
  rewrite decide_False by done. rewrite lookup_singleton.
  case_decide as Hb; subst.
  { by rewrite decide_True. }
  by rewrite decide_False.
Qed.

Lemma answerKeyOf_own examSet :
  Js.inherited examSet = false ->
  answerKeyOf examSet = setA ∨ answerKeyOf examSet = setB.
Proof.
  intros Hn. unfold answerKeyOf, getProperty.
  rewrite answerKeys_lookup, Hn.
  repeat case_decide; auto.
Qed.

Lemma answerKeyOf_inherited examSet :
  Js.inherited examSet = true -> answerKeyOf examSet = prototypeMember.
Proof.
  intros Hi. unfold answerKeyOf, getProperty.
  rewrite answerKeys_lookup, Hi.
  repeat case_decide; subst; try discriminate Hi. reflexivity.
Qed.

Lemma evaluateWith_undefined specialCases responses :
  evaluateWith None specialCases responses = Thrown TypeError.
Proof. reflexivity. Qed.

Lemma evaluateResponses_inherited responses examSet :
  Js.inherited examSet = true ->
  evaluateResponses responses examSet = Thrown TypeError.
Proof.
  intros Hi. unfold evaluateResponses.
  rewrite (answerKeyOf_inherited _ Hi). apply evaluateWith_undefined.
Qed.

Lemma specialCases_literal k case :
  ({[ "16" := {| acceptedAnswers := ["a"; "b"; "c"; "d"] |};
      "59" := {| acceptedAnswers := ["a"; "b"] |} ]} : gmap string SpecialCase)
    !! k = Some case ->
  Forall (fun a => a ∈ choices) (acceptedAnswers case).
Proof.
  rewrite lookup_insert. case_decide.
  { intros [= <-]. apply (bool_decide_unpack _). vm_compute. reflexivity. }
  rewrite lookup_singleton. case_decide; [|discriminate].
  intros [= <-]. apply (bool_decide_unpack _). vm_compute. reflexivity.
Qed.

Lemma setA_facts : KeyFacts setA.
Proof.
  split.
  - eexists. split; [reflexivity|]. split; [reflexivity|].
    apply (bool_decide_unpack _). vm_compute. reflexivity.
  - eexists. split; [reflexivity|]. apply specialCases_literal.
Qed.

Lemma setB_facts : KeyFacts setB.
Proof.
  split.
  - eexists. split; [reflexivity|]. split; [reflexivity|].
    apply (bool_decide_unpack _). vm_compute. reflexivity.
  - eexists. split; [reflexivity|]. apply specialCases_literal.
Qed.

Lemma answerKeyOf_facts examSet :
  Js.inherited examSet = false -> KeyFacts (answerKeyOf examSet).
Proof.
  intros [->| ->]%answerKeyOf_own; [apply setA_facts|apply setB_facts].
Qed.

(** The engine on an exam set whose name is not an inherited property. *)
Lemma evaluateResponses_returns responses examSet :
  Js.inherited examSet = false ->
  exists answers r,
    rawAnswers (answerKeyOf examSet) = Some answers
    ∧ length answers = 100
    ∧ evaluateResponses responses examSet = Returned r
    ∧ Consistent r
    ∧ detailedResults r =
        detailAt answers (specialCasesOf examSet) responses <$> seq 0 100
    ∧ percentage r = (Js.number (totalScore r) / 100 * 100)%float
    ∧ (forall subj s, subjectScores r !! subj = Some s ->
         SubjectScore.percentage s =
           (Js.number (SubjectScore.correct s) / Js.number (SubjectScore.total s)
            * 100)%float).
Proof.
  intros Hn. destruct (answerKeyOf_facts _ Hn) as [(answers & Ha & Hl & _) _].
  destruct (evaluateWith_returns answers (specialCasesOf examSet) responses)
    as (r & Hr & Hrest); [lia|].
  exists answers, r. unfold evaluateResponses. rewrite Ha. auto.
Qed.

(** For an exam set whose name is not an inherited property the result
    has the fixed shape: 100 questions, 100 records numbered in order,
    and the five subjects with 20 questions each. *)
Lemma evaluateResponses_shape (responses : list string) (examSet : string) :
  Js.inherited examSet = false ->
  exists r,
    evaluateResponses responses examSet = Returned r
    ∧ totalQuestions r = 100
    ∧ length (detailedResults r) = 100
    ∧ (forall i d, detailedResults r !! i = Some d -> questionNumber d = i + 1)
    ∧ dom (subjectScores r) = list_to_set subjects
    ∧ (forall subj s, subjectScores r !! subj = Some s ->
         SubjectScore.total s = 20 ∧ length (SubjectScore.questions s) = 20).
Proof.
  intros Hn.
  destruct (evaluateResponses_returns responses examSet Hn)
    as (answers & r & _ & _ & Hr & Hc & Hd & _).
  exists r. split; [exact Hr|]. split; [apply (cons_total _ Hc)|].
  split; [by rewrite Hd, length_fmap, length_seq|].
  split.
  { intros i d. rewrite Hd, list_lookup_fmap.
    destruct (seq 0 100 !! i) as [j|] eqn:Hj; [|discriminate].
    apply lookup_seq in Hj as [-> _]. by intros [= <-]. }
  split; [apply (cons_dom _ Hc)|].
  intros subj s Hs. destruct (cons_subject _ Hc _ _ Hs) as (Ht & _ & Hq).
  split; [exact Ht|]. rewrite Hq, length_fmap, Hd.
  assert (subj ∈ subjects) as Hsubj.
  { apply elem_of_dom_2 in Hs. rewrite (cons_dom _ Hc) in Hs.
    by apply elem_of_list_to_set in Hs. }
  rewrite detailAt_subject_filter. by apply questions_per_subject.
Qed.

(** The sibling read of the same table in [simulateOMRProcessing] falls
    back to set A for every name, inherited ones included. *)
Lemma simulatedCorrectAnswers_defined (examSet : string) :
  exists answers,
    simulatedCorrectAnswers examSet = Some answers ∧ length answers = 100.
Proof.
  unfold simulatedCorrectAnswers, getProperty. rewrite answerKeys_lookup.
  repeat case_decide; try (eexists; split; reflexivity).
  destruct (Js.inherited examSet); eexists; split; reflexivity.
Qed.

(** ** The result of an evaluation *)

(** C1. For every response array (and every exam set whose name is not
    an inherited property, so that the call returns), the result
    satisfies: [totalScore] is the number of entries of
    [detailedResults] whose status is ["correct"], and [totalScore +
    summary.incorrect + summary.unanswered] is the number of questions,
    100. *)
Theorem totals_add_up (responses : list string) (examSet : string) :
  Js.inherited examSet = false ->
  exists r,
    evaluateResponses responses examSet = Returned r
    ∧ totalScore r
      = length (filter (fun d => status d = "correct") (detailedResults r))
    ∧ totalScore r + Summary.incorrect (summary r) + Summary.unanswered (summary r)
      = 100
    ∧ totalQuestions r = 100.
Proof.
  intros Hn.
  destruct (evaluateResponses_returns responses examSet Hn)
    as (answers & r & _ & _ & Hr & Hc & Hd & _).
  exists r. split; [exact Hr|]. split; [apply (cons_score _ Hc)|].
  split; [|apply (cons_total _ Hc)].
  rewrite (cons_score _ Hc), (cons_incorrect _ Hc), (cons_unanswered _ Hc).
  rewrite countStatus_partition.
  - by rewrite Hd, length_fmap, length_seq.
  - rewrite Hd. apply detailAt_all_wellMarked.
Qed.

Lemma totals_add_up_witness :
  Js.inherited "setA" = false
  ∧ exists r,
      evaluateResponses ["b"; "A"; " "; ""; "x"] "setA" = Returned r
      ∧ totalScore r
        = length (filter (fun d => status d = "correct") (detailedResults r))
      ∧ totalScore r + Summary.incorrect (summary r)
        + Summary.unanswered (summary r) = 100
      ∧ totalQuestions r = 100.
Proof.
  split; [reflexivity|].
  apply (totals_add_up ["b"; "A"; " "; ""; "x"] "setA"). reflexivity.
Defined.

(** C6. The [correct] counters of the subjects add up to [totalScore]. *)
Theorem subject_scores_sum_to_total (responses : list string) (examSet : string) :
  Js.inherited examSet = false ->
  exists r,
    evaluateResponses responses examSet = Returned r
    ∧ sumCorrect (subjectScores r) = totalScore r.
Proof.
  intros Hn.
  destruct (evaluateResponses_returns responses examSet Hn)
    as (answers & r & _ & _ & Hr & Hc & _).
  exists r. split; [exact Hr|apply (cons_sum _ Hc)].
Qed.

Lemma subject_scores_sum_to_total_witness :
  Js.inherited "setA" = false
  ∧ exists r,
      evaluateResponses ["b"; "a"; "x"] "setA" = Returned r
      ∧ sumCorrect (subjectScores r) = totalScore r.
Proof.
  split; [reflexivity|].
  apply (subject_scores_sum_to_total ["b"; "a"; "x"] "setA"). reflexivity.
Defined.

(** C3. A question whose detected response is the empty string or only
    white space gets status ["unanswered"]; it counts once in
    [summary.unanswered] and not at all in [totalScore],
    [summary.correct] or [summary.incorrect]: these three are the counts
    over the other 99 records. *)
Theorem blank_is_unanswered (responses : list string) (examSet : string)
    (i : nat) (s : string) :
  Js.inherited examSet = false ->
  i < 100 ->
  responses !! i = Some s ->
  s = "" ∨ allWhiteSpace s = true ->
  exists r d,
    evaluateResponses responses examSet = Returned r
    ∧ detailedResults r !! i = Some d
    ∧ status d = "unanswered"
    ∧ isCorrect d = false
    ∧ Summary.unanswered (summary r)
      = 1 + length (filter (fun d => status d = "unanswered")
                           (delete i (detailedResults r)))
    ∧ totalScore r
      = length (filter (fun d => status d = "correct")
                       (delete i (detailedResults r)))
    ∧ Summary.correct (summary r)
      = length (filter (fun d => status d = "correct")
                       (delete i (detailedResults r)))
    ∧ Summary.incorrect (summary r)
      = length (filter (fun d => status d = "incorrect")
                       (delete i (detailedResults r))).
Proof.
  intros Hn Hi Hs Hblank.
  assert (isBlank (default "" (responses !! i)) = true) as Hb.
  { rewrite Hs. cbn. rewrite isBlank_allWhiteSpace.
    destruct Hblank as [->|Hw]; [reflexivity|exact Hw]. }
  destruct (evaluateResponses_returns responses examSet Hn)
    as (answers & r & _ & _ & Hr & Hc & Hd & _).
  destruct (detailAt_blank answers (specialCasesOf examSet) responses i Hb)
    as [Hst Hco].
  assert (detailedResults r !! i
          = Some (detailAt answers (specialCasesOf examSet) responses i)) as Hl.
  { rewrite Hd. by apply detailAt_lookup. }
  exists r, (detailAt answers (specialCasesOf examSet) responses i).
  split; [exact Hr|]. split; [exact Hl|]. split; [exact Hst|]. split; [exact Hco|].
  rewrite (cons_score _ Hc), (cons_correct _ Hc), (cons_incorrect _ Hc),
    (cons_unanswered _ Hc).
  rewrite !(countStatus_delete _ _ _ _ Hl), Hst.
  rewrite decide_True by done.
  rewrite !decide_False by discriminate.
  unfold countStatus. repeat split; lia.
Qed.

Lemma blank_is_unanswered_witness :
  Js.inherited "setB" = false
  ∧ 1 < 100
  ∧ ["b"; "  "; "c"] !! 1 = Some "  "
  ∧ ("  " = "" ∨ allWhiteSpace "  " = true)
  ∧ exists r d,
      evaluateResponses ["b"; "  "; "c"] "setB" = Returned r
      ∧ detailedResults r !! 1 = Some d
      ∧ status d = "unanswered"
      ∧ isCorrect d = false
      ∧ Summary.unanswered (summary r)
        = 1 + length (filter (fun d => status d = "unanswered")
                             (delete 1 (detailedResults r)))
      ∧ totalScore r
        = length (filter (fun d => status d = "correct")
                         (delete 1 (detailedResults r)))
      ∧ Summary.correct (summary r)
        = length (filter (fun d => status d = "correct")
                         (delete 1 (detailedResults r)))
      ∧ Summary.incorrect (summary r)
        = length (filter (fun d => status d = "incorrect")
                         (delete 1 (detailedResults r))).
Proof.
  split; [reflexivity|]. split; [lia|]. split; [reflexivity|].
  split; [right; reflexivity|].
  apply (blank_is_unanswered ["b"; "  "; "c"] "setB" 1 "  ");
    [reflexivity | lia | reflexivity | right; reflexivity].
Defined.

(** C4. A response array of any length is accepted: the call returns,
    every question at or beyond the array's length is recorded as
    ["unanswered"], and the result is that of the array cut to its first
    100 entries. *)
Theorem length_mismatch_tolerated (responses : list string) (examSet : string) :
  Js.inherited examSet = false ->
  exists r,
    evaluateResponses responses examSet = Returned r
    ∧ (forall i, length responses <= i < 100 ->
         exists d, detailedResults r !! i = Some d
                   ∧ questionNumber d = i + 1
                   ∧ status d = "unanswered"
                   ∧ isCorrect d = false)
    ∧ evaluateResponses (take 100 responses) examSet = Returned r.
Proof.
  intros Hn.
  destruct (evaluateResponses_returns responses examSet Hn)
    as (answers & r & _ & _ & Hr & Hc & Hd & _).
  exists r. split; [exact Hr|]. split.
  - intros i [Hlen Hi].
    exists (detailAt answers (specialCasesOf examSet) responses i).
    split; [rewrite Hd; by apply detailAt_lookup|].
    split; [reflexivity|].
    apply detailAt_blank. by rewrite lookup_ge_None_2.
  - rewrite <- Hr. unfold evaluateResponses.
    apply evaluateWith_ext. intros i Hi. by apply take_100_agrees.
Qed.

Lemma length_mismatch_tolerated_witness :
  Js.inherited "setA" = false
  ∧ length (replicate 95 "a") = 95
  ∧ exists r,
      evaluateResponses (replicate 95 "a") "setA" = Returned r
      ∧ (forall i, length (replicate 95 "a") <= i < 100 ->
           exists d, detailedResults r !! i = Some d
                     ∧ questionNumber d = i + 1
                     ∧ status d = "unanswered"
                     ∧ isCorrect d = false)
      ∧ evaluateResponses (take 100 (replicate 95 "a")) "setA" = Returned r.
Proof.
  split; [reflexivity|]. split; [reflexivity|].
  apply (length_mismatch_tolerated (replicate 95 "a") "setA"). reflexivity.
Defined.

(** C8. The result is a function of the inputs alone, and of no more
    than the resolved answer key and the first 100 entries of the
    response array (an absent entry read as the empty string): two calls
    that agree on these return the same outcome. *)
Theorem evaluation_is_deterministic (responses1 responses2 : list string)
    (examSet1 examSet2 : string) :
  (forall i, i < 100 ->
     default "" (responses1 !! i) = default "" (responses2 !! i)) ->
  answerKeyOf examSet1 = answerKeyOf examSet2 ->
  evaluateResponses responses1 examSet1 = evaluateResponses responses2 examSet2.
Proof.
  intros Hr Hk. unfold evaluateResponses, specialCasesOf. rewrite Hk.
  by apply evaluateWith_ext.
Qed.

Lemma evaluation_is_deterministic_witness :
  answerKeyOf "setA" = answerKeyOf "midterm"
  ∧ evaluateResponses ["b"; "a"] "setA"
    = evaluateResponses ["b"; "a"; ""] "midterm".
Proof.
  split; [reflexivity|].
  apply (evaluation_is_deterministic ["b"; "a"] ["b"; "a"; ""] "setA" "midterm").
  - intros i _. destruct i as [|[|[|i]]]; reflexivity.
  - reflexivity.
Defined.

(** C9, as the code has it. When every one of the 100 records is marked
    correct, the overall percentage is 100 and so is the percentage of
    each of the five subjects. The key of set A, submitted as the
    responses, is such a sheet; the key of set B is not, as the two
    lemmas after this one show. *)
Theorem all_correct_is_100_percent (responses : list string) (examSet : string)
    (r : EvaluationResult) :
  evaluateResponses responses examSet = Returned r ->
  Forall (fun d => status d = "correct") (detailedResults r) ->
  percentage r = 100%float
  ∧ forall subj, subj ∈ subjects ->
      exists s, subjectScores r !! subj = Some s
                ∧ SubjectScore.correct s = 20
                ∧ SubjectScore.total s = 20
                ∧ SubjectScore.percentage s = 100%float.
Proof.
  intros Hr Hall.
  destruct (Js.inherited examSet) eqn:Hn.
  { rewrite (evaluateResponses_inherited _ _ Hn) in Hr. discriminate Hr. }
  destruct (evaluateResponses_returns responses examSet Hn)
    as (answers & r' & _ & _ & Hr' & Hc & Hd & Hp & Hsp).
  rewrite Hr in Hr'. injection Hr' as <-.
  split.
  - rewrite Hp, (cons_score _ Hc), (countStatus_all _ _ Hall).
    rewrite Hd, length_fmap, length_seq. reflexivity.
  - intros subj Hsubj.
    assert (is_Some (subjectScores r !! subj)) as [s Hs].
    { apply elem_of_dom. rewrite (cons_dom _ Hc). by apply elem_of_list_to_set. }
    destruct (cons_subject _ Hc _ _ Hs) as (Htot & Hcor & _).
    assert (SubjectScore.correct s = 20) as Hcor'.
    { rewrite Hcor, Hd. rewrite Hd in Hall.
      rewrite (countSubjectCorrect_all _ _ _ _ _ Hall).
      by apply questions_per_subject. }
    exists s. split; [exact Hs|]. split; [exact Hcor'|]. split; [exact Htot|].
    rewrite (Hsp _ _ Hs), Hcor', Htot. reflexivity.
Qed.

Lemma all_correct_is_100_percent_witness :
  exists r,
    evaluateResponses perfectSheetA "setA" = Returned r
    ∧ Forall (fun d => status d = "correct") (detailedResults r)
    ∧ percentage r = 100%float
    ∧ forall subj, subj ∈ subjects ->
        exists s, subjectScores r !! subj = Some s
                  ∧ SubjectScore.correct s = 20
                  ∧ SubjectScore.total s = 20
                  ∧ SubjectScore.percentage s = 100%float.
Proof.
  assert (exists r, evaluateResponses perfectSheetA "setA" = Returned r
                    ∧ Forall (fun d => status d = "correct") (detailedResults r))
    as (r & Hr & Hall).
  { eexists. split; [vm_compute; reflexivity|].
    apply (bool_decide_unpack _). vm_compute. reflexivity. }
  exists r. split; [exact Hr|]. split; [exact Hall|].
  exact (all_correct_is_100_percent perfectSheetA "setA" r Hr Hall).
Defined.

(** The responses identical to the key of set B score 99 under set B:
    at question 59 the key says ["c"], the special case accepts ["a"]
    and ["b"] only, and the special case decides. *)
Lemma key_of_set_B_scores_99 :
  exists r d s,
    evaluateResponses perfectSheetB "setB" = Returned r
    ∧ percentage r = 99%float
    ∧ percentage r <> 100%float
    ∧ totalScore r = 99
    ∧ detailedResults r !! 58 = Some d
    ∧ questionNumber d = 59
    ∧ studentAnswer d = "c"
    ∧ correctAnswer d = Some "c"
    ∧ status d = "incorrect"
    ∧ subjectScores r !! "SQL" = Some s
    ∧ SubjectScore.percentage s = 95%float.
Proof.
  eexists _, _, _. split; [vm_compute; reflexivity|].
  split; [reflexivity|].
  split.
  { cbn [percentage]. intros H.
    assert (PrimFloat.eqb 99 100 = PrimFloat.eqb 100 100) as Hb by (by rewrite H).
    vm_compute in Hb. discriminate Hb. }
  split; [reflexivity|]. split; [reflexivity|].
  split; [reflexivity|]. split; [reflexivity|]. split; [reflexivity|].
  split; [reflexivity|]. split; [vm_compute; reflexivity|]. reflexivity.
Qed.

(** C10. The call does not return for every exam-set value: under the
    name of a property that [answerKeys] inherits from
    [Object.prototype], [answerKeys[examSet]] is a truthy object without
    [rawAnswers], the fallback to set A is skipped, and the first
    iteration throws on [correctAnswers[0]], whatever the responses. *)
Theorem inherited_exam_set_throws (responses : list string) :
  Js.inherited "constructor" = true
  ∧ evaluateResponses responses "constructor" = Thrown TypeError
  ∧ simulatedCorrectAnswers "constructor" = rawAnswers setA.
Proof.
  split; [reflexivity|]. split; [|reflexivity].
  by apply evaluateResponses_inherited.
Qed.

(** ** The mark of one answer *)

(** C2. At a question that has a special case, a non-empty answer is
    marked correct exactly when its lower-case form is one of the
    accepted answers; the canonical answer does not enter. *)
Theorem special_case_overrides_key (responses : list string) (examSet : string)
    (q : nat) (case : SpecialCase) (s : string) :
  Js.inherited examSet = false ->
  1 <= q <= 100 ->
  specialCasesOf examSet !! Js.toString q = Some case ->
  responses !! (q - 1) = Some s ->
  s <> "" ->
  exists r d,
    evaluateResponses responses examSet = Returned r
    ∧ detailedResults r !! (q - 1) = Some d
    ∧ questionNumber d = q
    ∧ (isCorrect d = true <-> Js.toLowerCase s ∈ acceptedAnswers case)
    ∧ (status d = "correct" <-> Js.toLowerCase s ∈ acceptedAnswers case).
Proof.
  intros Hn Hq Hcase Hs Hne.
  destruct (evaluateResponses_returns responses examSet Hn)
    as (answers & r & _ & _ & Hr & _ & Hd & _).
  replace q with (q - 1 + 1) in Hcase by lia.
  exists r, (detailAt answers (specialCasesOf examSet) responses (q - 1)).
  split; [exact Hr|].
  split; [rewrite Hd; apply detailAt_lookup; lia|].
  split; [cbn; lia|].
  assert (isCorrect (detailAt answers (specialCasesOf examSet) responses (q - 1))
          = true <-> Js.toLowerCase s ∈ acceptedAnswers case) as Hiff.
  { cbn [isCorrect detailAt].
    destruct (isBlank s) eqn:Hb.
    - rewrite (markAt_blank _ _ _ _ _ Hs Hb). split; [discriminate|].
      intros Hin. exfalso.
      destruct (answerKeyOf_facts _ Hn) as [_ (cases & Hcs & Hall)].
      unfold specialCasesOf in Hcase. rewrite Hcs in Hcase. cbn in Hcase.
      pose proof (Hall _ _ Hcase) as Hch. rewrite Forall_forall in Hch.
      rewrite (toLowerCase_choice_not_blank s (Hch _ Hin)) in Hb. discriminate.
    - rewrite (markAt_special _ _ _ _ _ _ Hs Hcase Hb).
      unfold Js.includes. apply bool_decide_eq_true. }
  split; [exact Hiff|]. by rewrite status_correct_iff.
Qed.

(** Question 59 of set B: the key says ["c"], the special case accepts
    ["a"] and ["b"], and the response ["B"] is marked correct. *)
Lemma special_case_overrides_key_witness :
  Js.inherited "setB" = false
  ∧ rawAnswers setB ≫= (.!! 58) = Some "c"
  ∧ specialCasesOf "setB" !! Js.toString 59
    = Some {| acceptedAnswers := ["a"; "b"] |}
  ∧ (replicate 58 "" ++ ["B"]) !! (59 - 1) = Some "B"
  ∧ exists r d,
      evaluateResponses (replicate 58 "" ++ ["B"]) "setB" = Returned r
      ∧ detailedResults r !! (59 - 1) = Some d
      ∧ questionNumber d = 59
      ∧ (isCorrect d = true
         <-> Js.toLowerCase "B" ∈ acceptedAnswers {| acceptedAnswers := ["a"; "b"] |})
      ∧ (status d = "correct"
         <-> Js.toLowerCase "B" ∈ acceptedAnswers {| acceptedAnswers := ["a"; "b"] |}).
Proof.
  split; [reflexivity|]. split; [reflexivity|].
  split; [vm_compute; reflexivity|]. split; [reflexivity|].
  apply (special_case_overrides_key (replicate 58 "" ++ ["B"]) "setB" 59
           {| acceptedAnswers := ["a"; "b"] |} "B");
    [reflexivity | lia | vm_compute; reflexivity | reflexivity | discriminate].
Defined.

(** C7. A non-empty answer is marked correct exactly when its
    lower-case form is one of the accepted answers of the question's
    special case or, without a special case, equals the lower-case form
    of the canonical answer. *)
Theorem comparison_ignores_case (responses : list string) (examSet : string)
    (q : nat) (s : string) :
  Js.inherited examSet = false ->
  1 <= q <= 100 ->
  responses !! (q - 1) = Some s ->
  s <> "" ->
  exists r d answer,
    evaluateResponses responses examSet = Returned r
    ∧ detailedResults r !! (q - 1) = Some d
    ∧ rawAnswers (answerKeyOf examSet) ≫= (.!! (q - 1)) = Some answer
    ∧ correctAnswer d = Some answer
    ∧ (isCorrect d = true <->
         match specialCasesOf examSet !! Js.toString q with
         | Some case => Js.toLowerCase s ∈ acceptedAnswers case
         | None => Js.toLowerCase s = Js.toLowerCase answer
         end).
Proof.
  intros Hn Hq Hs Hne.
  destruct (evaluateResponses_returns responses examSet Hn)
    as (answers & r & Ha & Hlen & Hr & _ & Hd & _).
  destruct (lookup_lt_is_Some_2 answers (q - 1)) as [a Hqa]; [lia|].
  destruct (answerKeyOf_facts _ Hn)
    as [(answers' & Ha' & _ & Hch) (cases & Hcs & Hall)].
  rewrite Ha in Ha'. injection Ha' as <-.
  assert (a ∈ choices) as Hach.
  { rewrite Forall_forall in Hch. apply Hch. by eapply list_elem_of_lookup_2. }
  exists r, (detailAt answers (specialCasesOf examSet) responses (q - 1)), a.
  split; [exact Hr|].
  split; [rewrite Hd; apply detailAt_lookup; lia|].
  split; [by rewrite Ha|]. split; [exact Hqa|].
  cbn [isCorrect detailAt].
  replace q with (q - 1 + 1) at 2 by lia.
  destruct (specialCasesOf examSet !! Js.toString (q - 1 + 1)) as [case|] eqn:Hcase.
  - destruct (isBlank s) eqn:Hb.
    + rewrite (markAt_blank _ _ _ _ _ Hs Hb). split; [discriminate|].
      intros Hin. exfalso.
      unfold specialCasesOf in Hcase. rewrite Hcs in Hcase. cbn in Hcase.
      pose proof (Hall _ _ Hcase) as Hcc. rewrite Forall_forall in Hcc.
      rewrite (toLowerCase_choice_not_blank s (Hcc _ Hin)) in Hb. discriminate.
    + rewrite (markAt_special _ _ _ _ _ _ Hs Hcase Hb).
      unfold Js.includes. apply bool_decide_eq_true.
  - destruct (isBlank s) eqn:Hb.
    + rewrite (markAt_blank _ _ _ _ _ Hs Hb). split; [discriminate|].
      intros Heq. exfalso.
      rewrite (toLowerCase_choice a Hach) in Heq.
      assert (Js.toLowerCase s ∈ choices) as Hin by (by rewrite Heq).
      rewrite (toLowerCase_choice_not_blank s Hin) in Hb. discriminate.
    + rewrite (markAt_plain _ _ _ _ _ _ Hs Hcase Hqa Hb).
      unfold Js.strictEq. apply bool_decide_eq_true.
Qed.

(** Question 1 of set A: the key says ["b"] and the response ["B"] is
    marked correct. *)
Lemma comparison_ignores_case_witness :
  Js.inherited "setA" = false
  ∧ ["B"] !! (1 - 1) = Some "B"
  ∧ exists r d answer,
      evaluateResponses ["B"] "setA" = Returned r
      ∧ detailedResults r !! (1 - 1) = Some d
      ∧ rawAnswers (answerKeyOf "setA") ≫= (.!! (1 - 1)) = Some answer
      ∧ correctAnswer d = Some answer
      ∧ (isCorrect d = true <->
           match specialCasesOf "setA" !! Js.toString 1 with
           | Some case => Js.toLowerCase "B" ∈ acceptedAnswers case
           | None => Js.toLowerCase "B" = Js.toLowerCase answer
           end).
Proof.
  split; [reflexivity|]. split; [reflexivity|].
  apply (comparison_ignores_case ["B"] "setA" 1 "B");
    [reflexivity | lia | reflexivity | discriminate].
Defined.

(** The comparison lower-cases both sides: against a key written in
    capitals, the response ["b"] matches the key ["B"]. *)
Example lowercase_matches_capital_key :
  exists r d,
    evaluateWith (Some (replicate 100 "B")) ∅ ["b"] = Returned r
    ∧ detailedResults r !! 0 = Some d
    ∧ studentAnswer d = "b"
    ∧ correctAnswer d = Some "B"
    ∧ isCorrect d = true.
Proof.
  eexists _, _. split; [vm_compute; reflexivity|]. repeat split.
Qed.

(** ** Questions outside every subject segment *)







(** * Further properties of the code *)

(** ** [evaluateResponses]: when it throws, and which key it uses *)

(** X1. The call throws, a [TypeError], exactly when the exam set is
    the name of a property inherited from [Object.prototype]; for every
    other exam set it returns. *)
Theorem throws_exactly_on_inherited_names (responses : list string)
    (examSet : string) :
  (evaluateResponses responses examSet = Thrown TypeError
   <-> Js.inherited examSet = true)
  ∧ ((exists r, evaluateResponses responses examSet = Returned r)
     <-> Js.inherited examSet = false).
Proof.
  destruct (Js.inherited examSet) eqn:Hi.
  - rewrite (evaluateResponses_inherited _ _ Hi).
    split; split; try done. intros [r Hr]. discriminate Hr.
  - destruct (evaluateResponses_returns responses examSet Hi)
      as (answers & r & _ & _ & Hr & _).
    rewrite Hr. split; split; try done. by exists r.
Qed.

Lemma answerKeyOf_unknown examSet :
  examSet <> "setA" -> examSet <> "setB" -> Js.inherited examSet = false ->
  answerKeyOf examSet = setA.
Proof.
  intros Ha Hb Hi. unfold answerKeyOf, getProperty.
  rewrite answerKeys_lookup, Hi. by rewrite !decide_False.
Qed.

(** X2. An exam set that is neither ["setA"] nor ["setB"] (nor an
    inherited name) is scored with the key and the special cases of set
    A. *)
Theorem unknown_exam_set_is_set_A (responses : list string) (examSet : string) :
  examSet <> "setA" -> examSet <> "setB" -> Js.inherited examSet = false ->
  evaluateResponses responses examSet = evaluateResponses responses "setA".
Proof.
  intros Ha Hb Hi. unfold evaluateResponses, specialCasesOf.
  by rewrite (answerKeyOf_unknown _ Ha Hb Hi).
Qed.

Lemma unknown_exam_set_is_set_A_witness :
  "setC" <> "setA" ∧ "setC" <> "setB" ∧ Js.inherited "setC" = false
  ∧ evaluateResponses ["b"; "c"] "setC" = evaluateResponses ["b"; "c"] "setA".
Proof.
  split; [discriminate|]. split; [discriminate|]. split; [reflexivity|].
  apply (unknown_exam_set_is_set_A ["b"; "c"] "setC");
    [discriminate | discriminate | reflexivity].
Defined.

(** ** [evaluateResponses]: the records *)

Lemma detailAt_agree answers specialCases responses1 responses2 i :
  default "" (responses1 !! i) = default "" (responses2 !! i) ->
  detailAt answers specialCases responses1 i
  = detailAt answers specialCases responses2 i.
Proof. intros He. unfold detailAt, statusAt, markAt. by rewrite He. Qed.

Lemma statusAt_unanswered answers specialCases responses i :
  statusAt answers specialCases responses i = "unanswered"
  <-> isBlank (default "" (responses !! i)) = true.
Proof.
  unfold statusAt. destruct (isBlank _); [done|].
  destruct (markAt _ _ _ _); split; discriminate.
Qed.

(** X3. The record of question [i + 1] reports the inputs as they are:
    its number, its subject, the response as submitted (the empty string
    when absent; neither trimmed nor lower-cased) and the key's answer.
    Its status is one of the three, ["correct"] exactly when [isCorrect]
    holds and ["unanswered"] exactly when the response is empty or
    white space. *)
Theorem record_reports_inputs (responses : list string) (examSet : string)
    (r : EvaluationResult) (i : nat) (d : DetailedResult) :
  evaluateResponses responses examSet = Returned r ->
  detailedResults r !! i = Some d ->
  questionNumber d = i + 1
  ∧ subject d = getSubjectForQuestion (i + 1)
  ∧ studentAnswer d = default "" (responses !! i)
  ∧ correctAnswer d = rawAnswers (answerKeyOf examSet) ≫= (.!! i)
  ∧ status d ∈ ["correct"; "incorrect"; "unanswered"]
  ∧ (status d = "correct" <-> isCorrect d = true)
  ∧ (status d = "unanswered" <-> allWhiteSpace (studentAnswer d) = true).
Proof.
  intros Hr Hd.
  destruct (Js.inherited examSet) eqn:Hn.
  { rewrite (evaluateResponses_inherited _ _ Hn) in Hr. discriminate Hr. }
  destruct (evaluateResponses_returns responses examSet Hn)
    as (answers & r' & Ha & _ & Hr' & _ & Hds & _).
  rewrite Hr in Hr'. injection Hr' as <-.
  rewrite Hds, list_lookup_fmap in Hd.
  destruct (seq 0 100 !! i) as [j|] eqn:Hj; [|discriminate].
  apply lookup_seq in Hj as [-> _]. injection Hd as <-. cbn [plus] in *.
  split; [reflexivity|]. split; [reflexivity|]. split; [reflexivity|].
  split; [by rewrite Ha|].
  split.
  { destruct (detailAt_wellMarked answers (specialCasesOf examSet) responses i)
      as [[_ ->]|[[_ ->]|[_ ->]]]; rewrite !elem_of_cons; auto. }
  split; [apply status_correct_iff|].
  cbn [status studentAnswer detailAt].
  by rewrite statusAt_unanswered, isBlank_allWhiteSpace.
Qed.

Lemma record_reports_inputs_witness :
  exists r d,
    evaluateResponses [" B "; "A"] "setA" = Returned r
    ∧ detailedResults r !! 0 = Some d
    ∧ questionNumber d = 0 + 1
    ∧ subject d = getSubjectForQuestion (0 + 1)
    ∧ studentAnswer d = default "" ([" B "; "A"] !! 0)
    ∧ correctAnswer d = rawAnswers (answerKeyOf "setA") ≫= (.!! 0)
    ∧ status d ∈ ["correct"; "incorrect"; "unanswered"]
    ∧ (status d = "correct" <-> isCorrect d = true)
    ∧ (status d = "unanswered" <-> allWhiteSpace (studentAnswer d) = true).
Proof.
  assert (exists r d, evaluateResponses [" B "; "A"] "setA" = Returned r
                      ∧ detailedResults r !! 0 = Some d) as (r & d & Hr & Hd).
  { eexists _, _. split; [vm_compute; reflexivity|reflexivity]. }
  exists r, d. split; [exact Hr|]. split; [exact Hd|].
  exact (record_reports_inputs [" B "; "A"] "setA" r 0 d Hr Hd).
Defined.

(** What a returned result is, for the proofs that start from one. *)
Lemma evaluateResponses_returned responses examSet r :
  evaluateResponses responses examSet = Returned r ->
  exists answers,
    rawAnswers (answerKeyOf examSet) = Some answers
    ∧ Consistent r
    ∧ detailedResults r =
        detailAt answers (specialCasesOf examSet) responses <$> seq 0 100
    ∧ percentage r = (Js.number (totalScore r) / 100 * 100)%float
    ∧ (forall subj s, subjectScores r !! subj = Some s ->
         SubjectScore.percentage s =
           (Js.number (SubjectScore.correct s) / Js.number (SubjectScore.total s)
            * 100)%float).
Proof.
  intros Hr.
  destruct (Js.inherited examSet) eqn:Hn.
  { rewrite (evaluateResponses_inherited _ _ Hn) in Hr. discriminate Hr. }
  destruct (evaluateResponses_returns responses examSet Hn)
    as (answers & r' & Ha & _ & Hr' & Hrest).
  rewrite Hr in Hr'. injection Hr' as <-. by exists answers.
Qed.

(** X4. Scoring the recorded answers again gives the same result: the
    [studentAnswer] fields of [detailedResults], read as a response
    array, evaluate to the result they come from. *)
Theorem rescoring_recorded_answers (responses : list string) (examSet : string)
    (r : EvaluationResult) :
  evaluateResponses responses examSet = Returned r ->
  evaluateResponses (studentAnswer <$> detailedResults r) examSet = Returned r.
Proof.
  intros Hr. destruct (evaluateResponses_returned _ _ _ Hr) as (answers & _ & _ & Hd & _).
  rewrite <- Hr. unfold evaluateResponses. apply evaluateWith_ext.
  intros i Hi. rewrite Hd, list_lookup_fmap, detailAt_lookup by done.
  reflexivity.
Qed.

Lemma rescoring_recorded_answers_witness :
  exists r,
    evaluateResponses ["B"; " "; "x"] "setB" = Returned r
    ∧ evaluateResponses (studentAnswer <$> detailedResults r) "setB" = Returned r.
Proof.
  assert (exists r, evaluateResponses ["B"; " "; "x"] "setB" = Returned r)
    as [r Hr].
  { eexists. vm_compute. reflexivity. }
  exists r. split; [exact Hr|].
  exact (rescoring_recorded_answers ["B"; " "; "x"] "setB" r Hr).
Defined.

Lemma countStatus_le_1 st (d : DetailedResult) :
  (if decide (status d = st) then 1 else 0) <= 1.
Proof. case_decide; lia. Qed.

(** X5. A response bears on its own question only: when two response
    arrays differ at index [i] alone, every record but the one at [i] is
    the same in the two results, and the two total scores differ by at
    most one. *)
Theorem one_response_one_record (responses1 responses2 : list string)
    (examSet : string) (i : nat) (r1 r2 : EvaluationResult) :
  (forall j, j <> i -> default "" (responses1 !! j) = default "" (responses2 !! j)) ->
  evaluateResponses responses1 examSet = Returned r1 ->
  evaluateResponses responses2 examSet = Returned r2 ->
  (forall j, j <> i -> detailedResults r1 !! j = detailedResults r2 !! j)
  ∧ totalScore r1 <= totalScore r2 + 1
  ∧ totalScore r2 <= totalScore r1 + 1.
Proof.
  intros Hagree Hr1 Hr2.
  destruct (evaluateResponses_returned _ _ _ Hr1) as (answers & Ha & Hc1 & Hd1 & _).
  destruct (evaluateResponses_returned _ _ _ Hr2) as (answers' & Ha' & Hc2 & Hd2 & _).
  rewrite Ha in Ha'. injection Ha' as <-.
  assert (forall j, j <> i -> detailedResults r1 !! j = detailedResults r2 !! j)
    as Hrec.
  { intros j Hj. rewrite Hd1, Hd2, !list_lookup_fmap.
    destruct (seq 0 100 !! j) as [k|] eqn:Hk; [|reflexivity].
    apply lookup_seq in Hk as [-> _]. cbn.
    by rewrite (detailAt_agree _ _ responses1 responses2 j (Hagree j Hj)). }
  split; [exact Hrec|].
  rewrite (cons_score _ Hc1), (cons_score _ Hc2).
  destruct (decide (i < 100)) as [Hi|Hi].
  - assert (delete i (detailedResults r1) = delete i (detailedResults r2)) as Hdel.
    { apply list_eq. intros j.
      destruct (decide (j < i)) as [Hlt|Hge].
      - rewrite !list_lookup_delete_lt by done. apply Hrec. lia.
      - rewrite !list_lookup_delete_ge by lia. apply Hrec. lia. }
    assert (is_Some (detailedResults r1 !! i)) as [d1 Hd1'].
    { rewrite Hd1, detailAt_lookup by done. eauto. }
    assert (is_Some (detailedResults r2 !! i)) as [d2 Hd2'].
    { rewrite Hd2, detailAt_lookup by done. eauto. }
    rewrite (countStatus_delete _ _ _ _ Hd1'), (countStatus_delete _ _ _ _ Hd2'), Hdel.
    pose proof (countStatus_le_1 "correct" d1).
    pose proof (countStatus_le_1 "correct" d2). lia.
  - assert (detailedResults r1 = detailedResults r2) as ->; [|lia].
    apply list_eq. intros j. destruct (decide (j = i)) as [->|Hj]; [|by apply Hrec].
    rewrite Hd1, Hd2, !list_lookup_fmap, !lookup_seq_ge by lia. reflexivity.
Qed.

Lemma one_response_one_record_witness :
  exists r1 r2,
    evaluateResponses ["b"; "x"; "c"] "setA" = Returned r1
    ∧ evaluateResponses ["b"; "a"; "c"] "setA" = Returned r2
    ∧ (forall j, j <> 1 -> detailedResults r1 !! j = detailedResults r2 !! j)
    ∧ totalScore r1 <= totalScore r2 + 1
    ∧ totalScore r2 <= totalScore r1 + 1.
Proof.
  assert (forall j, j <> 1 ->
            default "" (["b"; "x"; "c"] !! j) = default "" (["b"; "a"; "c"] !! j))
    as Hagree.
  { intros [|[|[|j]]] Hj; [reflexivity|contradiction|reflexivity|reflexivity]. }
  assert (exists r1, evaluateResponses ["b"; "x"; "c"] "setA" = Returned r1)
    as [r1 Hr1].
  { eexists. vm_compute. reflexivity. }
  assert (exists r2, evaluateResponses ["b"; "a"; "c"] "setA" = Returned r2)
    as [r2 Hr2].
  { eexists. vm_compute. reflexivity. }
  exists r1, r2. split; [exact Hr1|]. split; [exact Hr2|].
  exact (one_response_one_record ["b"; "x"; "c"] ["b"; "a"; "c"] "setA" 1 r1 r2
           Hagree Hr1 Hr2).
Defined.

(** ** [evaluateResponses]: the subjects and the percentages *)

Lemma countSubjectCorrect_questions subj ds :
  Forall wellMarked ds ->
  countSubjectCorrect subj ds
  = length (filter (fun q => SubjectQuestion.isCorrect q = true)
                   (subjectQuestionOf <$> filter (fun d => subject d = subj) ds)).
Proof.
  unfold countSubjectCorrect.
  induction 1 as [|d ds Hd _ IH]; [reflexivity|].
  rewrite !filter_cons.
  destruct (decide (subject d = subj)) as [Hs|Hs].
  - rewrite fmap_cons, filter_cons. cbn [subjectQuestionOf SubjectQuestion.isCorrect].
    destruct Hd as [[Hc Hst]|[[Hc Hst]|[Hc Hst]]]; rewrite Hc, Hst.
    + rewrite decide_True by done. rewrite decide_True by done.
      cbn [length]. by rewrite IH.
    + rewrite decide_False by (intros [_ ?]; done).
      rewrite decide_False by done. exact IH.
    + rewrite decide_False by (intros [_ ?]; done).
      rewrite decide_False by done. exact IH.
  - rewrite decide_False by (intros [? _]; done). exact IH.
Qed.

(** X6. Each entry of [subjectScores] belongs to one of the five
    subjects and summarises that subject's records: its [questions] are
    the records of [detailedResults] with that subject, in order, 20 of
    them; [correct] is the number of those marked correct, and
    [percentage] is [correct / total * 100]. *)
Theorem subject_entry_summarises_its_records (responses : list string)
    (examSet : string) (r : EvaluationResult) (subj : string)
    (s : SubjectScore.t) :
  evaluateResponses responses examSet = Returned r ->
  subjectScores r !! subj = Some s ->
  subj ∈ subjects
  ∧ SubjectScore.questions s
    = subjectQuestionOf <$> filter (fun d => subject d = subj) (detailedResults r)
  ∧ length (SubjectScore.questions s) = 20
  ∧ SubjectScore.total s = 20
  ∧ SubjectScore.correct s
    = length (filter (fun q => SubjectQuestion.isCorrect q = true)
                     (SubjectScore.questions s))
  ∧ SubjectScore.percentage s
    = (Js.number (SubjectScore.correct s) / Js.number 20 * 100)%float.
Proof.
  intros Hr Hs.
  destruct (evaluateResponses_returned _ _ _ Hr) as (answers & _ & Hc & Hd & _ & Hp).
  destruct (cons_subject _ Hc _ _ Hs) as (Ht & Hco & Hq).
  assert (subj ∈ subjects) as Hsubj.
  { apply elem_of_dom_2 in Hs. rewrite (cons_dom _ Hc) in Hs.
    by apply elem_of_list_to_set in Hs. }
  split; [exact Hsubj|]. split; [exact Hq|].
  split.
  { rewrite Hq, length_fmap, Hd, detailAt_subject_filter.
    by apply questions_per_subject. }
  split; [exact Ht|].
  split.
  { rewrite Hco, Hq. apply countSubjectCorrect_questions.
    rewrite Hd. apply detailAt_all_wellMarked. }
  rewrite (Hp _ _ Hs). by rewrite Ht.
Qed.

Lemma subject_entry_summarises_its_records_witness :
  exists r s,
    evaluateResponses ["b"; "a"; "x"] "setA" = Returned r
    ∧ subjectScores r !! "Python" = Some s
    ∧ "Python" ∈ subjects
    ∧ SubjectScore.questions s
      = subjectQuestionOf
          <$> filter (fun d => subject d = "Python") (detailedResults r)
    ∧ length (SubjectScore.questions s) = 20
    ∧ SubjectScore.total s = 20
    ∧ SubjectScore.correct s
      = length (filter (fun q => SubjectQuestion.isCorrect q = true)
                       (SubjectScore.questions s))
    ∧ SubjectScore.percentage s
      = (Js.number (SubjectScore.correct s) / Js.number 20 * 100)%float.
Proof.
  assert (exists r s, evaluateResponses ["b"; "a"; "x"] "setA" = Returned r
                      ∧ subjectScores r !! "Python" = Some s)
    as (r & s & Hr & Hs).
  { eexists _, _. split; vm_compute; reflexivity. }
  exists r, s. split; [exact Hr|]. split; [exact Hs|].
  exact (subject_entry_summarises_its_records ["b"; "a"; "x"] "setA" r "Python" s
           Hr Hs).
Defined.

(** The percentage of a score of [n] out of [total], as the code computes
    it. *)
Lemma percent_table_bounds (total : nat) :
  total = 100 ∨ total = 20 ->
  forall n, n <= total ->
    PrimFloat.leb 0 (Js.number n / Js.number total * 100) = true
    ∧ PrimFloat.leb (Js.number n / Js.number total * 100) 100 = true.
Proof.
  intros Ht n Hn.
  assert (forallb (fun n =>
            PrimFloat.leb 0 (Js.number n / Js.number total * 100)
            && PrimFloat.leb (Js.number n / Js.number total * 100) 100)
            (seq 0 (S total)) = true) as Hall.
  { destruct Ht as [-> | ->]; vm_compute; reflexivity. }
  rewrite forallb_forall in Hall.
  specialize (Hall n). apply andb_true_iff, Hall, in_seq. lia.
Qed.

Lemma percent_table_increasing :
  forall n m, n < m -> m <= 100 ->
    PrimFloat.ltb (Js.number n / 100 * 100) (Js.number m / 100 * 100) = true.
Proof.
  intros n m Hnm Hm.
  assert (forallb (fun m =>
            forallb (fun n =>
              PrimFloat.ltb (Js.number n / 100 * 100) (Js.number m / 100 * 100))
              (seq 0 m))
            (seq 0 101) = true) as Hall.
  { vm_compute. reflexivity. }
  rewrite forallb_forall in Hall.
  specialize (Hall m). rewrite forallb_forall in Hall.
  apply Hall; apply in_seq; lia.
Qed.

Lemma totalScore_le_100 responses examSet r :
  evaluateResponses responses examSet = Returned r -> totalScore r <= 100.
Proof.
  intros Hr.
  destruct (evaluateResponses_returned _ _ _ Hr) as (answers & _ & Hc & Hd & _).
  rewrite (cons_score _ Hc). unfold countStatus.
  etrans; [apply length_filter|]. by rewrite Hd, length_fmap, length_seq.
Qed.

(** X7. The overall percentage and every subject's percentage lie
    between 0 and 100, in the order of binary64 numbers. *)
Theorem percentages_within_bounds (responses : list string) (examSet : string)
    (r : EvaluationResult) :
  evaluateResponses responses examSet = Returned r ->
  (PrimFloat.leb 0 (percentage r) = true
   ∧ PrimFloat.leb (percentage r) 100 = true)
  ∧ forall subj s, subjectScores r !! subj = Some s ->
      PrimFloat.leb 0 (SubjectScore.percentage s) = true
      ∧ PrimFloat.leb (SubjectScore.percentage s) 100 = true.
Proof.
  intros Hr.
  destruct (evaluateResponses_returned _ _ _ Hr) as (answers & _ & Hc & Hd & Hp & Hsp).
  split.
  - rewrite Hp. apply (percent_table_bounds 100); [by left|].
    by eapply totalScore_le_100.
  - intros subj s Hs. destruct (cons_subject _ Hc _ _ Hs) as (Ht & Hco & Hq).
    rewrite (Hsp _ _ Hs), Ht. apply (percent_table_bounds 20); [by right|].
    rewrite <- Ht.
    assert (length (SubjectScore.questions s) = 20) as Hlen.
    { assert (subj ∈ subjects) as Hsubj.
      { apply elem_of_dom_2 in Hs. rewrite (cons_dom _ Hc) in Hs.
        by apply elem_of_list_to_set in Hs. }
      rewrite Hq, length_fmap, Hd, detailAt_subject_filter.
      by apply questions_per_subject. }
    rewrite Ht, <- Hlen, Hco, Hq, length_fmap. unfold countSubjectCorrect.
    clear. induction (detailedResults r) as [|d ds IH]; [done|].
    rewrite !filter_cons.
    destruct (decide (subject d = subj)) as [Hs|Hs].
    + destruct (decide (status d = "correct")) as [Hst|Hst].
      * rewrite decide_True by done. cbn [length]. lia.
      * rewrite decide_False by (intros [_ ?]; done). cbn [length]. lia.
    + rewrite decide_False by (intros [? _]; done). exact IH.
Qed.

Lemma percentages_within_bounds_witness :
  exists r,
    evaluateResponses ["b"; "a"; "x"] "setA" = Returned r
    ∧ (PrimFloat.leb 0 (percentage r) = true
       ∧ PrimFloat.leb (percentage r) 100 = true)
    ∧ forall subj s, subjectScores r !! subj = Some s ->
        PrimFloat.leb 0 (SubjectScore.percentage s) = true
        ∧ PrimFloat.leb (SubjectScore.percentage s) 100 = true.
Proof.
  assert (exists r, evaluateResponses ["b"; "a"; "x"] "setA" = Returned r)
    as [r Hr].
  { eexists. vm_compute. reflexivity. }
  exists r. split; [exact Hr|].
  exact (percentages_within_bounds ["b"; "a"; "x"] "setA" r Hr).
Defined.

(** X8. The percentage orders results as the score does: of two
    results, whatever the sheets and exam sets, the one with the higher
    [totalScore] has the strictly higher [percentage]. *)
Theorem higher_score_higher_percentage (responses1 responses2 : list string)
    (examSet1 examSet2 : string) (r1 r2 : EvaluationResult) :
  evaluateResponses responses1 examSet1 = Returned r1 ->
  evaluateResponses responses2 examSet2 = Returned r2 ->
  totalScore r1 < totalScore r2 ->
  PrimFloat.ltb (percentage r1) (percentage r2) = true.
Proof.
  intros Hr1 Hr2 Hlt.
  destruct (evaluateResponses_returned _ _ _ Hr1) as (? & _ & _ & _ & -> & _).
  destruct (evaluateResponses_returned _ _ _ Hr2) as (? & _ & _ & _ & -> & _).
  apply percent_table_increasing; [exact Hlt|].
  by eapply totalScore_le_100.
Qed.

Lemma higher_score_higher_percentage_witness :
  exists r1 r2,
    evaluateResponses ["b"] "setA" = Returned r1
    ∧ evaluateResponses ["c"; "b"] "setB" = Returned r2
    ∧ totalScore r1 < totalScore r2
    ∧ PrimFloat.ltb (percentage r1) (percentage r2) = true.
Proof.
  assert (exists r1 r2,
            evaluateResponses ["b"] "setA" = Returned r1
            ∧ evaluateResponses ["c"; "b"] "setB" = Returned r2
            ∧ totalScore r1 < totalScore r2) as (r1 & r2 & Hr1 & Hr2 & Hlt).
  { eexists _, _. split; [vm_compute; reflexivity|].
    split; [vm_compute; reflexivity|]. cbn. lia. }
  exists r1, r2. split; [exact Hr1|]. split; [exact Hr2|]. split; [exact Hlt|].
  exact (higher_score_higher_percentage ["b"] ["c"; "b"] "setA" "setB" r1 r2
           Hr1 Hr2 Hlt).
Defined.

(** ** The subject table of [evaluateAnswers] *)

Lemma findSubject_uncovered subjects questionNum :
  covered subjects questionNum = false ->
  Server.findSubject subjects questionNum = "Unknown".
Proof.
  unfold covered. induction subjects as [|[name info] subjects IH]; [done|].
  cbn. intros [Hh Ht]%orb_false_iff. rewrite Hh. by apply IH.
Qed.

Lemma findSubject_entry subjects questionNum :
  Server.findSubject subjects questionNum = "Unknown"
  ∨ exists entry, entry ∈ subjects
                  ∧ entry.1 = Server.findSubject subjects questionNum.
Proof.
  induction subjects as [|[name info] subjects IH]; [by left|].
  cbn. destruct (_ && _).
  - right. exists (name, info). split; [apply list_elem_of_here|done].
  - destruct IH as [IH|(entry & Hin & Heq)]; [by left|].
    right. exists entry. split; [by apply list_elem_of_further|done].
Qed.

Lemma readScore_writeScore name s acc :
  Server.readScore name (Server.writeScore name s acc) = Some s.
Proof.
  unfold Server.readScore, Server.writeScore.
  destruct (Js.strictEq name "__proto__") eqn:Hp; cbn; rewrite ?Hp; [done|].
  apply lookup_insert_eq.
Qed.

Lemma readScore_writeScore_ne name name' s acc :
  name <> name' ->
  Server.readScore name' (Server.writeScore name s acc) = Server.readScore name' acc.
Proof.
  intros Hne. unfold Server.readScore, Server.writeScore, Js.strictEq.
  repeat case_bool_decide; subst; cbn; try done.
  by rewrite lookup_insert_ne.
Qed.

(** An own property is never stored under ["__proto__"]. *)
Lemma writeScore_own_proto name s acc :
  Server.accScores (Server.writeScore name s acc) !! "__proto__"
  = Server.accScores acc !! "__proto__".
Proof.
  unfold Server.writeScore, Js.strictEq. case_bool_decide; cbn; [done|].
  by rewrite lookup_insert_ne.
Qed.

Lemma initialised_writeScore subjects acc name s :
  initialised subjects acc -> initialised subjects (Server.writeScore name s acc).
Proof.
  intros Hi entry Hin. destruct (decide (name = entry.1)) as [->|Hne].
  - by rewrite readScore_writeScore.
  - rewrite readScore_writeScore_ne by done. by apply Hi.
Qed.

(** [subjectScores] after the first [forEach]: every subject of the
    table has its object, with nothing counted yet; ["__proto__"] has
    it as the prototype and not as a property. *)
Lemma initialise_spec subjects :
  initialised subjects (Server.initialise subjects)
  ∧ Server.accCorrect (Server.initialise subjects) = 0
  ∧ Server.accScores (Server.initialise subjects) !! "__proto__" = None
  ∧ prototypeCorrect (Server.accPrototype (Server.initialise subjects)) = 0
  ∧ forall name s,
      Server.accScores (Server.initialise subjects) !! name = Some s ->
      Server.SubjectScore.correct s = 0
      ∧ Server.SubjectScore.questions s = []
      ∧ exists info, (name, info) ∈ subjects
                     ∧ Server.SubjectScore.total s = Server.count info.
Proof.
  unfold Server.initialise.
  induction subjects as [|[name' info'] subjects IH] using rev_ind.
  - cbn. split; [intros entry Hin; by apply elem_of_nil in Hin|].
    repeat split; try done; intros name s Hs; by rewrite lookup_empty in Hs.
  - destruct IH as (Hinit & Hc & Hp & Hpc & Hown).
    rewrite foldl_app. cbn [foldl fst snd].
    set (acc := foldl _ _ subjects) in *.
    split.
    { intros entry [Hin|Hin]%elem_of_app.
      - by apply (initialised_writeScore subjects).
      - apply list_elem_of_singleton in Hin as ->. cbn.
        by rewrite readScore_writeScore. }
    split.
    { unfold Server.writeScore. by destruct (Js.strictEq _ _). }
    split; [by rewrite writeScore_own_proto|].
    split.
    { unfold Server.writeScore. by destruct (Js.strictEq _ _). }
    intros name s. unfold Server.writeScore, Js.strictEq.
    case_bool_decide as Hn'; cbn.
    + intros Hs. destruct (Hown _ _ Hs) as (? & ? & info & Hin & Ht).
      split; [done|]. split; [done|]. exists info. split; [|done].
      apply elem_of_app. by left.
    + rewrite lookup_insert. case_decide as Hn.
      * intros [= <-]. subst name'. cbn. split; [done|]. split; [done|].
        exists info'. split; [|done]. apply elem_of_app. right.
        apply list_elem_of_here.
      * intros Hs. destruct (Hown _ _ Hs) as (? & ? & info & Hin & Ht).
        split; [done|]. split; [done|]. exists info. split; [|done].
        apply elem_of_app. by left.
Qed.

(** ** Counting the entries of [evaluateAnswers] *)

Lemma serverSumCorrect_insert_fresh k v (m : gmap string Server.SubjectScore.t) :
  m !! k = None ->
  serverSumCorrect (<[k := v]> m) = Server.SubjectScore.correct v + serverSumCorrect m.
Proof.
  intros Hk. unfold serverSumCorrect.
  rewrite map_fold_insert_L; [done| |done]. intros. lia.
Qed.

Lemma serverSumCorrect_insert k v v' (m : gmap string Server.SubjectScore.t) :
  m !! k = Some v ->
  serverSumCorrect (<[k := v']> m) + Server.SubjectScore.correct v
  = serverSumCorrect m + Server.SubjectScore.correct v'.
Proof.
  intros Hk.
  rewrite <- (insert_delete_id m k v Hk) at 2.
  rewrite <- (insert_delete_eq m k v').
  rewrite !serverSumCorrect_insert_fresh by apply lookup_delete_eq. lia.
Qed.

Lemma serverSumCorrect_fmap (g : Server.SubjectScore.t -> Server.SubjectScore.t)
    (m : gmap string Server.SubjectScore.t) :
  (forall s, Server.SubjectScore.correct (g s) = Server.SubjectScore.correct s) ->
  serverSumCorrect (g <$> m) = serverSumCorrect m.
Proof.
  intros Hg. induction m as [|k v m Hk IH] using map_ind.
  - by rewrite fmap_empty.
  - rewrite fmap_insert, !serverSumCorrect_insert_fresh, Hg, IH; [done|done|].
    by rewrite lookup_fmap, Hk.
Qed.

Lemma serverSumCorrect_zero (m : gmap string Server.SubjectScore.t) :
  (forall k s, m !! k = Some s -> Server.SubjectScore.correct s = 0) ->
  serverSumCorrect m = 0.
Proof.
  induction m as [|k v m Hk IH] using map_ind; intros Hz; [reflexivity|].
  rewrite serverSumCorrect_insert_fresh by done.
  rewrite (Hz k v) by apply lookup_insert_eq.
  rewrite IH; [done|]. intros k' s Hs. apply (Hz k').
  rewrite lookup_insert_ne; [done|]. intros ->. congruence.
Qed.

Lemma countCorrect_cons e es :
  countCorrect (e :: es) = countCorrect [e] + countCorrect es.
Proof.
  unfold countCorrect. rewrite !filter_cons, filter_nil.
  case_decide; cbn [length]; lia.
Qed.

Lemma countCredited_cons e es :
  countCredited (e :: es) = countCredited [e] + countCredited es.
Proof.
  unfold countCredited. rewrite !filter_cons, filter_nil.
  case_decide; cbn [length]; lia.
Qed.

Lemma countInherited_cons e es :
  countInherited (e :: es) = countInherited [e] + countInherited es.
Proof.
  unfold countInherited. rewrite !filter_cons, filter_nil.
  case_decide; cbn [length]; lia.
Qed.

(** A correct entry is credited to one object at most. *)
Lemma countCredited_le es :
  countCredited es + countInherited es <= countCorrect es.
Proof.
  induction es as [|e es IH]; [done|].
  rewrite countCredited_cons, countInherited_cons, countCorrect_cons.
  unfold countCredited, countInherited, countCorrect in *.
  rewrite !filter_cons, !filter_nil.
  repeat case_decide; cbn [length]; try lia; naive_solver.
Qed.

Lemma sameTotals_trans s0 s1 s2 :
  sameTotals s0 s1 -> sameTotals s1 s2 -> sameTotals s0 s2.
Proof.
  intros H01 H12 name s Hs.
  destruct (H12 _ _ Hs) as (s1' & Hs1 & Ht1).
  destruct (H01 _ _ Hs1) as (s0' & Hs0 & Ht0).
  exists s0'. split; [done|congruence].
Qed.

(** ** The [map] callback of [evaluateAnswers] *)

(** The callback, when the key has an answer at [index]. *)
Lemma evaluateOne_step answerKey subjects acc detected index answer :
  answerKey !! index = Some answer ->
  initialised subjects acc ->
  exists acc',
    Server.evaluateOne answerKey subjects acc detected index
      = Returned (entryAt answer subjects detected, acc')
    ∧ initialised subjects acc'
    ∧ Server.accCorrect acc'
      = Server.accCorrect acc + countCorrect [entryAt answer subjects detected]
    ∧ serverSumCorrect (Server.accScores acc')
      = serverSumCorrect (Server.accScores acc)
        + countCredited [entryAt answer subjects detected]
    ∧ prototypeCorrect (Server.accPrototype acc')
      = prototypeCorrect (Server.accPrototype acc)
        + countInherited [entryAt answer subjects detected]
    ∧ sameTotals (Server.accScores acc) (Server.accScores acc')
    ∧ Server.accScores acc' !! "Unknown" = Server.accScores acc !! "Unknown".
Proof.
  intros Ha Hinit. unfold Server.evaluateOne. rewrite Ha.
  cbn [mbind Outcome_bind].
  unfold countCorrect, countCredited, countInherited.
  rewrite !filter_cons, !filter_nil.
  cbn [entryAt Server.Evaluated.isCorrect Server.Evaluated.subject].
  set (isCorrect := Js.strictEq _ _).
  set (subject := Server.findSubject subjects (Server.questionNumber detected)).
  assert (forall acc0, initialised subjects acc0 ->
            initialised subjects
              {| Server.accCorrect :=
                   if isCorrect then S (Server.accCorrect acc)
                   else Server.accCorrect acc;
                 Server.accScores := Server.accScores acc0;
                 Server.accPrototype := Server.accPrototype acc0 |}) as Hkeep.
  { intros acc0 H0 entry Hin. exact (H0 entry Hin). }
  destruct (Js.strictEq subject "Unknown") eqn:Hu; cbn [negb].
  - cbn [mbind Outcome_bind]. eexists. split; [reflexivity|].
    cbn [Server.accScores Server.accCorrect Server.accPrototype].
    apply bool_decide_eq_true in Hu.
    split; [by apply Hkeep|]. split.
    { destruct isCorrect; [rewrite decide_True by done|rewrite decide_False by done];
        cbn [length]; lia. }
    split.
    { rewrite decide_False by (intros (_ & ? & _); done). cbn [length]. lia. }
    split.
    { rewrite decide_False by (intros [_ ?]; congruence). cbn [length]. lia. }
    split; [|done]. intros name s Hs. by exists s.
  - apply bool_decide_eq_false in Hu.
    destruct (findSubject_entry subjects (Server.questionNumber detected))
      as [Heq|(entry & Hin & Heq)]; [done|].
    destruct (Hinit entry Hin) as [s Hs]. rewrite Heq in Hs.
    fold subject in Hs. rewrite Hs.
    cbn [mbind Outcome_bind]. eexists. split; [reflexivity|].
    split; [by apply Hkeep, initialised_writeScore|].
    cbn [Server.accCorrect].
    split.
    { destruct isCorrect; [rewrite decide_True by done|rewrite decide_False by done];
        cbn [length]; lia. }
    revert Hs. unfold Server.readScore, Server.writeScore, Js.strictEq.
    case_bool_decide as Hp; intros Hs;
      cbn [Server.accScores Server.accPrototype].
    + (* the prototype *)
      split.
      { rewrite decide_False by (intros (_ & _ & ?); done). cbn [length]. lia. }
      split.
      { unfold prototypeCorrect. rewrite Hs. cbn [from_option]. destruct isCorrect.
        - rewrite decide_True by done. cbn. lia.
        - rewrite decide_False by (intros [? _]; done). cbn. lia. }
      split; [|done]. intros name s' Hs'. by exists s'.
    + (* an own property *)
      split.
      { match goal with
        | |- serverSumCorrect (<[_ := ?v']> _) = _ =>
            pose proof (serverSumCorrect_insert subject s v' _ Hs) as Hsum
        end.
        destruct isCorrect.
        - rewrite decide_True by done. cbn [length] in *.
          cbn [Server.SubjectScore.incrCorrect Server.SubjectScore.pushQuestion
               Server.SubjectScore.correct] in Hsum. lia.
        - rewrite decide_False by (intros [? _]; done). cbn [length] in *.
          cbn [Server.SubjectScore.pushQuestion Server.SubjectScore.correct] in Hsum.
          lia. }
      split.
      { rewrite decide_False by (intros [_ ?]; done). cbn [length]. lia. }
      split.
      { intros name s'. rewrite lookup_insert. case_decide as Hn.
        - intros [= <-]. subst name. exists s. split; [done|].
          by destruct isCorrect.
        - intros Hs'. by exists s'. }
      by rewrite lookup_insert_ne.
Qed.

(** The [map] over a sheet that the key covers from [index] on. *)
Lemma mapFrom_spec answerKey subjects detectedAnswers :
  forall index acc,
    index + length detectedAnswers <= length answerKey ->
    initialised subjects acc ->
    exists acc',
      Server.mapFrom answerKey subjects detectedAnswers index acc
        = Returned (entriesOf (drop index answerKey) subjects detectedAnswers, acc')
      ∧ Server.accCorrect acc'
        = Server.accCorrect acc
          + countCorrect (entriesOf (drop index answerKey) subjects detectedAnswers)
      ∧ serverSumCorrect (Server.accScores acc')
        = serverSumCorrect (Server.accScores acc)
          + countCredited (entriesOf (drop index answerKey) subjects detectedAnswers)
      ∧ prototypeCorrect (Server.accPrototype acc')
        = prototypeCorrect (Server.accPrototype acc)
          + countInherited (entriesOf (drop index answerKey) subjects detectedAnswers)
      ∧ sameTotals (Server.accScores acc) (Server.accScores acc')
      ∧ Server.accScores acc' !! "Unknown" = Server.accScores acc !! "Unknown".
Proof.
  induction detectedAnswers as [|detected rest IH]; intros index acc Hlen Hinit.
  - exists acc. unfold entriesOf. rewrite zip_with_nil_r. cbn.
    repeat split; try lia. intros name s Hs. by exists s.
  - cbn [length] in Hlen.
    destruct (lookup_lt_is_Some_2 answerKey index) as [answer Ha]; [lia|].
    destruct (evaluateOne_step answerKey subjects acc detected index answer Ha Hinit)
      as (acc1 & He & Hinit1 & Hc1 & Hs1 & Hp1 & Ht1 & Hu1).
    destruct (IH (S index) acc1) as (acc2 & Hm & Hc2 & Hs2 & Hp2 & Ht2 & Hu2);
      [lia|done|].
    cbn [Server.mapFrom]. rewrite He. cbn [mbind Outcome_bind].
    rewrite Hm. cbn [mbind Outcome_bind].
    assert (entriesOf (drop index answerKey) subjects (detected :: rest)
            = entryAt answer subjects detected
              :: entriesOf (drop (S index) answerKey) subjects rest) as Hcons.
    { unfold entriesOf. by rewrite (drop_S _ _ _ Ha). }
    exists acc2. rewrite Hcons. split; [reflexivity|].
    rewrite countCorrect_cons, countCredited_cons, countInherited_cons.
    split; [lia|]. split; [lia|]. split; [lia|].
    split; [by eapply sameTotals_trans|]. congruence.
Qed.

Lemma mapFrom_throws answerKey subjects detectedAnswers :
  forall index acc,
    index <= length answerKey ->
    length answerKey < index + length detectedAnswers ->
    initialised subjects acc ->
    Server.mapFrom answerKey subjects detectedAnswers index acc = Thrown TypeError.
Proof.
  induction detectedAnswers as [|detected rest IH]; intros index acc Hle Hlen Hinit.
  - cbn in Hlen. lia.
  - cbn [length] in Hlen. cbn [Server.mapFrom].
    destruct (decide (index < length answerKey)) as [Hlt|Hge].
    + destruct (lookup_lt_is_Some_2 answerKey index Hlt) as [answer Ha].
      destruct (evaluateOne_step answerKey subjects acc detected index answer Ha Hinit)
        as (acc1 & He & Hinit1 & _).
      rewrite He. cbn [mbind Outcome_bind].
      rewrite (IH (S index) acc1) by (done || lia). reflexivity.
    + unfold Server.evaluateOne. rewrite lookup_ge_None_2 by lia. reflexivity.
Qed.

(** ** [evaluateAnswers] *)

(** [evaluateAnswers] on an exam with a subject table and a key that
    covers the sheet. *)
Lemma evaluateAnswers_spec detectedAnswers answerKey subjects :
  length detectedAnswers <= length answerKey ->
  exists r,
    Server.evaluateAnswers detectedAnswers answerKey (Some subjects) = Returned r
    ∧ Server.evaluation r = entriesOf answerKey subjects detectedAnswers
    ∧ Server.score r = countCorrect (Server.evaluation r)
    ∧ Server.correctAnswers r = Server.score r
    ∧ Server.totalQuestions r = length answerKey
    ∧ Server.percentage r
      = (Js.number (Server.score r) / Js.number (length answerKey) * 100)%float
    ∧ serverSumCorrect (Server.subjectScores r) = countCredited (Server.evaluation r)
    ∧ prototypeCorrect (Server.subjectScoresPrototype r)
      = countInherited (Server.evaluation r)
    ∧ Server.subjectScores r !! "__proto__" = None
    ∧ (forall name s, Server.subjectScores r !! name = Some s ->
         (exists info, (name, info) ∈ subjects
                       ∧ Server.SubjectScore.total s = Server.count info)
         ∧ Server.SubjectScore.percentage s
           = (Js.number (Server.SubjectScore.correct s)
              / Js.number (Server.SubjectScore.total s) * 100)%float
         ∧ (name = "Unknown" ->
            Server.SubjectScore.correct s = 0
            ∧ Server.SubjectScore.questions s = [])).
Proof.
  intros Hlen. unfold Server.evaluateAnswers. cbn [mbind Outcome_bind].
  destruct (initialise_spec subjects) as (Hinit & Hc0 & Hp0 & Hpc0 & Hzero).
  destruct (mapFrom_spec answerKey subjects detectedAnswers 0
              (Server.initialise subjects))
    as (acc & Hm & Hc & Hs & Hp & Ht & Hu); [cbn; lia|exact Hinit|].
  rewrite drop_0 in Hm, Hc, Hs, Hp.
  rewrite Hm. cbn [mbind Outcome_bind].
  eexists. split; [reflexivity|].
  cbn [Server.evaluation Server.score Server.correctAnswers Server.totalQuestions
       Server.percentage Server.subjectScores Server.subjectScoresPrototype].
  split; [reflexivity|]. split; [lia|]. split; [reflexivity|].
  split; [reflexivity|]. split; [reflexivity|].
  split.
  { rewrite serverSumCorrect_fmap by done. rewrite Hs.
    rewrite serverSumCorrect_zero; [done|]. intros k s Hk. by apply (Hzero k s). }
  split; [lia|].
  split.
  { rewrite lookup_fmap.
    destruct (Server.accScores acc !! "__proto__") as [s|] eqn:Hs1; [|done].
    destruct (Ht _ _ Hs1) as (s0 & Hs0 & _). congruence. }
  intros name s. rewrite lookup_fmap.
  destruct (Server.accScores acc !! name) as [s1|] eqn:Hs1; [|discriminate].
  intros [= <-]. cbn.
  destruct (Ht _ _ Hs1) as (s0 & Hs0 & Htot).
  destruct (Hzero _ _ Hs0) as (Hc0' & Hq0 & info & Hin & Hti).
  split; [exists info; split; [done|congruence]|].
  split; [done|]. intros ->.
  rewrite Hu, Hs0 in Hs1. injection Hs1 as <-. done.
Qed.

(** What a returned result says of the arguments. *)
Lemma evaluateAnswers_returned detectedAnswers answerKey subjects r :
  Server.evaluateAnswers detectedAnswers answerKey subjects = Returned r ->
  exists entries,
    subjects = Some entries ∧ length detectedAnswers <= length answerKey.
Proof.
  destruct subjects as [entries|]; [|discriminate].
  intros Hr. exists entries. split; [reflexivity|].
  destruct (decide (length detectedAnswers <= length answerKey)) as [Hle|Hgt]; [done|].
  unfold Server.evaluateAnswers in Hr. cbn [mbind Outcome_bind] in Hr.
  rewrite mapFrom_throws in Hr; [discriminate Hr|lia|cbn; lia|].
  apply initialise_spec.
Qed.

(** X9. [evaluateAnswers] throws, a [TypeError], exactly when the exam
    has no subject table (the read of its keys) or the answer key is
    shorter than the sheet (the read of the first missing key entry);
    it returns exactly when there is a table, whatever it holds, and
    the key is as long as the sheet. *)
Theorem missing_table_or_short_key_throws (detectedAnswers : list Server.Bubble)
    (answerKey : list string)
    (subjects : option (list (string * Server.SubjectInfo))) :
  (Server.evaluateAnswers detectedAnswers answerKey subjects = Thrown TypeError
   <-> subjects = None ∨ length answerKey < length detectedAnswers)
  ∧ ((exists r, Server.evaluateAnswers detectedAnswers answerKey subjects = Returned r)
     <-> is_Some subjects ∧ length detectedAnswers <= length answerKey).
Proof.
  destruct subjects as [entries|].
  - destruct (decide (length detectedAnswers <= length answerKey)) as [Hle|Hgt].
    + destruct (evaluateAnswers_spec detectedAnswers answerKey entries Hle)
        as (r & Hr & _).
      rewrite Hr. split; split.
      * discriminate.
      * intros [Hn|Hlt]; [discriminate Hn|lia].
      * done.
      * intros _. by exists r.
    + assert (Server.evaluateAnswers detectedAnswers answerKey (Some entries)
              = Thrown TypeError) as Ht.
      { unfold Server.evaluateAnswers. cbn [mbind Outcome_bind].
        rewrite mapFrom_throws; [reflexivity|lia|cbn; lia|].
        apply initialise_spec. }
      rewrite Ht. split; split.
      * intros _. right. lia.
      * done.
      * intros [r Hr]. discriminate Hr.
      * intros [_ Hle]. lia.
  - split; split.
    + intros _. by left.
    + done.
    + intros [r Hr]. discriminate Hr.
    + intros [[x Hx] _]. discriminate Hx.
Qed.

(** X10. The result of [evaluateAnswers] has one entry per detected
    answer; [score] (and [correctAnswers]) is the number of entries
    marked correct and [totalQuestions] is the length of the key, not
    of the sheet. The [correct] counters of the properties of
    [subjectScores] add up to the number of correct entries whose
    subject is neither ["Unknown"] nor ["__proto__"]: a subject named
    ["__proto__"] is no property of [subjectScores] but its prototype,
    which counts the correct entries of that subject. Together they
    count no more than [score]. *)
Theorem server_score_and_subjects (detectedAnswers : list Server.Bubble)
    (answerKey : list string) (subjects : list (string * Server.SubjectInfo))
    (r : Server.Evaluation) :
  Server.evaluateAnswers detectedAnswers answerKey (Some subjects) = Returned r ->
  length (Server.evaluation r) = length detectedAnswers
  ∧ Server.score r
    = length (filter (fun e => Server.Evaluated.isCorrect e = true)
                     (Server.evaluation r))
  ∧ Server.correctAnswers r = Server.score r
  ∧ Server.totalQuestions r = length answerKey
  ∧ Server.subjectScores r !! "__proto__" = None
  ∧ serverSumCorrect (Server.subjectScores r)
    = length (filter (fun e => Server.Evaluated.isCorrect e = true
                               ∧ Server.Evaluated.subject e <> "Unknown"
                               ∧ Server.Evaluated.subject e <> "__proto__")
                     (Server.evaluation r))
  ∧ prototypeCorrect (Server.subjectScoresPrototype r)
    = length (filter (fun e => Server.Evaluated.isCorrect e = true
                               ∧ Server.Evaluated.subject e = "__proto__")
                     (Server.evaluation r))
  ∧ serverSumCorrect (Server.subjectScores r)
    + prototypeCorrect (Server.subjectScoresPrototype r) <= Server.score r.
Proof.
  intros Hr.
  destruct (evaluateAnswers_returned _ _ _ _ Hr) as (_ & _ & Hle).
  destruct (evaluateAnswers_spec detectedAnswers answerKey subjects Hle)
    as (r' & Hr' & He & Hs & Hc & Ht & _ & Hsum & Hproto & Hown & _).
  rewrite Hr in Hr'. injection Hr' as <-.
  split.
  { rewrite He. unfold entriesOf. rewrite length_zip_with. lia. }
  split; [exact Hs|]. split; [exact Hc|]. split; [exact Ht|].
  split; [exact Hown|]. split; [exact Hsum|]. split; [exact Hproto|].
  rewrite Hsum, Hproto, Hs. apply countCredited_le.
Qed.

(** Two correct answers, the first under a subject named ["__proto__"]:
    the score is 2 and the properties of [subjectScores] count 1. *)
Lemma server_score_and_subjects_witness :
  exists r,
    Server.evaluateAnswers twoBubbles ["a"; "b"; "c"]
      (Some [("__proto__",
              {| Server.start := 1; Server.end_ := 1; Server.count := 1 |});
             ("Python",
              {| Server.start := 2; Server.end_ := 2; Server.count := 1 |})])
    = Returned r
    ∧ Server.score r = 2
    ∧ length (Server.evaluation r) = length twoBubbles
    ∧ Server.totalQuestions r = length ["a"; "b"; "c"]
    ∧ Server.subjectScores r !! "__proto__" = None
    ∧ serverSumCorrect (Server.subjectScores r) = 1
    ∧ prototypeCorrect (Server.subjectScoresPrototype r) = 1.
Proof.
  assert (exists r,
    Server.evaluateAnswers twoBubbles ["a"; "b"; "c"]
      (Some [("__proto__",
              {| Server.start := 1; Server.end_ := 1; Server.count := 1 |});
             ("Python",
              {| Server.start := 2; Server.end_ := 2; Server.count := 1 |})])
    = Returned r
    ∧ Server.score r = 2
    ∧ Server.evaluation r
      = [ {| Server.Evaluated.questionNumber := 1;
             Server.Evaluated.subject := "__proto__";
             Server.Evaluated.studentAnswer := "A";
             Server.Evaluated.correctAnswer := "a";
             Server.Evaluated.isCorrect := true;
             Server.Evaluated.confidence := 0.5%float |};
          {| Server.Evaluated.questionNumber := 2;
             Server.Evaluated.subject := "Python";
             Server.Evaluated.studentAnswer := "B";
             Server.Evaluated.correctAnswer := "b";
             Server.Evaluated.isCorrect := true;
             Server.Evaluated.confidence := 0.5%float |} ]) as (r & Hr & Hsc & Hev).
  { eexists. split; [vm_compute; reflexivity|]. split; reflexivity. }
  destruct (server_score_and_subjects _ _ _ r Hr)
    as (Hl & _ & _ & Ht & Hown & Hsum & Hproto & _).
  rewrite Hev in Hsum, Hproto.
  exists r. split; [exact Hr|]. split; [exact Hsc|]. split; [exact Hl|].
  split; [exact Ht|]. split; [exact Hown|].
  split; [exact Hsum|exact Hproto].
Defined.

(** X11. The entry of [evaluateAnswers] for the detected answer at
    position [k] carries its question number, the answer as detected and
    the key's answer at [k]; its subject is that of the first segment
    holding the question number, or ["Unknown"]; and it is marked
    correct exactly when answer and key agree up to letter case. An
    empty answer is marked like any other: there is no unanswered
    status. *)
Theorem server_entry (detectedAnswers : list Server.Bubble)
    (answerKey : list string) (subjects : list (string * Server.SubjectInfo))
    (r : Server.Evaluation) (k : nat) (detected : Server.Bubble) :
  Server.evaluateAnswers detectedAnswers answerKey (Some subjects) = Returned r ->
  detectedAnswers !! k = Some detected ->
  exists e answer,
    Server.evaluation r !! k = Some e
    ∧ answerKey !! k = Some answer
    ∧ Server.Evaluated.questionNumber e = Server.questionNumber detected
    ∧ Server.Evaluated.studentAnswer e = Server.detectedAnswer detected
    ∧ Server.Evaluated.correctAnswer e = answer
    ∧ Server.Evaluated.subject e
      = Server.findSubject subjects (Server.questionNumber detected)
    ∧ (Server.Evaluated.isCorrect e = true
       <-> Js.toLowerCase (Server.detectedAnswer detected) = Js.toLowerCase answer).
Proof.
  intros Hr Hk.
  destruct (evaluateAnswers_returned _ _ _ _ Hr) as (_ & _ & Hle).
  destruct (evaluateAnswers_spec detectedAnswers answerKey subjects Hle)
    as (r' & Hr' & He & _).
  rewrite Hr in Hr'. injection Hr' as <-.
  destruct (lookup_lt_is_Some_2 answerKey k) as [answer Ha].
  { apply lookup_lt_Some in Hk. lia. }
  exists (entryAt answer subjects detected), answer.
  split.
  { rewrite He. unfold entriesOf. rewrite lookup_zip_with, Ha. cbn. by rewrite Hk. }
  split; [exact Ha|]. do 4 (split; [reflexivity|]).
  cbn. unfold Js.strictEq. apply bool_decide_eq_true.
Qed.

Lemma server_entry_witness :
  exists r,
    Server.evaluateAnswers twoBubbles ["a"; "b"; "c"] (Some partialMap) = Returned r
    ∧ twoBubbles !! 1
      = Some {| Server.questionNumber := 2; Server.detectedAnswer := "B";
                Server.confidence := 0.5%float; Server.subject := "Python" |}
    ∧ exists e answer,
        Server.evaluation r !! 1 = Some e
        ∧ ["a"; "b"; "c"] !! 1 = Some answer
        ∧ Server.Evaluated.questionNumber e = 2
        ∧ Server.Evaluated.studentAnswer e = "B"
        ∧ Server.Evaluated.correctAnswer e = answer
        ∧ Server.Evaluated.subject e = Server.findSubject partialMap 2
        ∧ (Server.Evaluated.isCorrect e = true
           <-> Js.toLowerCase "B" = Js.toLowerCase answer).
Proof.
  assert (exists r, Server.evaluateAnswers twoBubbles ["a"; "b"; "c"] (Some partialMap)
                    = Returned r) as [r Hr].
  { eexists. vm_compute. reflexivity. }
  exists r. split; [exact Hr|]. split; [reflexivity|].
  exact (server_entry twoBubbles ["a"; "b"; "c"] partialMap r 1
           {| Server.questionNumber := 2; Server.detectedAnswer := "B";
              Server.confidence := 0.5%float; Server.subject := "Python" |}
           Hr eq_refl).
Defined.

(** X12. Every entry of the [subjectScores] of [evaluateAnswers]
    belongs to a subject of the map and has that subject's [count] as
    its [total], whatever the width of the segment; its [percentage] is
    [correct / total * 100]. A subject named ["Unknown"] is never
    credited: its [correct] stays 0 and its [questions] empty. *)
Theorem server_subject_entry (detectedAnswers : list Server.Bubble)
    (answerKey : list string) (subjects : list (string * Server.SubjectInfo))
    (r : Server.Evaluation) (name : string) (s : Server.SubjectScore.t) :
  Server.evaluateAnswers detectedAnswers answerKey (Some subjects) = Returned r ->
  Server.subjectScores r !! name = Some s ->
  (exists info, (name, info) ∈ subjects
                ∧ Server.SubjectScore.total s = Server.count info)
  ∧ Server.SubjectScore.percentage s
    = (Js.number (Server.SubjectScore.correct s)
       / Js.number (Server.SubjectScore.total s) * 100)%float
  ∧ (name = "Unknown" ->
     Server.SubjectScore.correct s = 0 ∧ Server.SubjectScore.questions s = []).
Proof.
  intros Hr Hs.
  destruct (evaluateAnswers_returned _ _ _ _ Hr) as (_ & _ & Hle).
  destruct (evaluateAnswers_spec detectedAnswers answerKey subjects Hle)
    as (r' & Hr' & _ & _ & _ & _ & _ & _ & _ & _ & Hsub).
  rewrite Hr in Hr'. injection Hr' as <-. by apply Hsub.
Qed.

(** A one-question sheet under a map whose only subject is named
    ["Unknown"]. *)
Lemma server_subject_entry_witness :
  exists r s,
    Server.evaluateAnswers
      [ {| Server.questionNumber := 1; Server.detectedAnswer := "a";
           Server.confidence := 0.5%float; Server.subject := "Unknown" |} ]
      ["a"]
      (Some [("Unknown",
              {| Server.start := 1; Server.end_ := 1; Server.count := 1 |})])
    = Returned r
    ∧ Server.subjectScores r !! "Unknown" = Some s
    ∧ Server.score r = 1
    ∧ Server.SubjectScore.correct s = 0
    ∧ Server.SubjectScore.questions s = [].
Proof.
  assert (exists r s,
    Server.evaluateAnswers
      [ {| Server.questionNumber := 1; Server.detectedAnswer := "a";
           Server.confidence := 0.5%float; Server.subject := "Unknown" |} ]
      ["a"]
      (Some [("Unknown",
              {| Server.start := 1; Server.end_ := 1; Server.count := 1 |})])
    = Returned r
    ∧ Server.subjectScores r !! "Unknown" = Some s
    ∧ Server.score r = 1) as (r & s & Hr & Hs & Hsc).
  { eexists _, _. split; [vm_compute; reflexivity|].
    split; [vm_compute; reflexivity|reflexivity]. }
  exists r, s. split; [exact Hr|]. split; [exact Hs|]. split; [exact Hsc|].
  exact (proj2 (proj2 (server_subject_entry _ _ _ r "Unknown" s Hr Hs)) eq_refl).
Defined.

(** X13. The divisions of [evaluateAnswers] are not guarded: the
    percentage of a returned result is [score / answerKey.length * 100]
    as computed on binary64 numbers, which is NaN, not 0, when the key
    is empty; and the percentage of a subject whose [count] is 0 is
    NaN as long as the subject has no correct answer. *)
Theorem unguarded_percentages (detectedAnswers : list Server.Bubble)
    (answerKey : list string) (subjects : list (string * Server.SubjectInfo))
    (r : Server.Evaluation) :
  Server.evaluateAnswers detectedAnswers answerKey (Some subjects) = Returned r ->
  Server.percentage r
  = (Js.number (Server.score r) / Js.number (length answerKey) * 100)%float
  ∧ (answerKey = [] ->
     Server.score r = 0 ∧ Server.percentage r = nan
     ∧ PrimFloat.eqb (Server.percentage r) 0 = false)
  ∧ (forall name s,
       Server.subjectScores r !! name = Some s ->
       Server.SubjectScore.total s = 0 ->
       Server.SubjectScore.correct s = 0 ->
       Server.SubjectScore.percentage s = nan).
Proof.
  intros Hr.
  destruct (evaluateAnswers_returned _ _ _ _ Hr) as (_ & _ & Hlen).
  destruct (evaluateAnswers_spec detectedAnswers answerKey subjects Hlen)
    as (r' & Hr' & He & Hs & _ & _ & Hp & _ & _ & _ & Hsub).
  rewrite Hr in Hr'. injection Hr' as <-.
  split; [exact Hp|]. split.
  - intros ->. cbn in Hlen. destruct detectedAnswers; [|cbn in Hlen; lia].
    assert (Server.score r = 0) as H0 by (by rewrite Hs, He).
    rewrite Hp, H0. by repeat split.
  - intros name s Hn Ht Hc. destruct (Hsub name s Hn) as (_ & -> & _).
    by rewrite Ht, Hc.
Qed.

Lemma unguarded_percentages_witness :
  exists r s,
    Server.evaluateAnswers [] []
      (Some [("Python",
              {| Server.start := 1; Server.end_ := 20; Server.count := 0 |})])
    = Returned r
    ∧ Server.subjectScores r !! "Python" = Some s
    ∧ Server.percentage r = nan
    ∧ PrimFloat.eqb (Server.percentage r) 0 = false
    ∧ Server.SubjectScore.percentage s = nan.
Proof.
  assert (exists r s,
    Server.evaluateAnswers [] []
      (Some [("Python",
              {| Server.start := 1; Server.end_ := 20; Server.count := 0 |})])
    = Returned r
    ∧ Server.subjectScores r !! "Python" = Some s
    ∧ Server.SubjectScore.total s = 0
    ∧ Server.SubjectScore.correct s = 0) as (r & s & Hr & Hs & Ht & Hc).
  { eexists _, _. split; [vm_compute; reflexivity|].
    split; [vm_compute; reflexivity|]. split; reflexivity. }
  destruct (unguarded_percentages _ _ _ r Hr) as (_ & Hk & Hsub).
  destruct (Hk eq_refl) as (_ & Hnan & Hne).
  exists r, s. split; [exact Hr|]. split; [exact Hs|].
  split; [exact Hnan|]. split; [exact Hne|].
  exact (Hsub "Python" s Hs Ht Hc).
Defined.

(** X14. The hard-coded subject lookup and the subject table of the
    exam the server starts with agree on every question number, those
    outside 1..100 included. *)
Theorem lookup_agrees_with_default_table (questionNum : nat) :
  Server.findSubject defaultSubjects questionNum = getSubjectForQuestion questionNum.
Proof.
  destruct (decide (questionNum <= 100)) as [Hle|Hgt].
  - assert (Forall (fun q => Server.findSubject defaultSubjects q
                             = getSubjectForQuestion q) (seq 0 101)) as Hall.
    { apply (bool_decide_unpack _). vm_compute. reflexivity. }
    rewrite Forall_forall in Hall. apply Hall, elem_of_seq. lia.
  - rewrite (proj2 (getSubjectForQuestion_unknown questionNum)) by lia.
    apply findSubject_uncovered. unfold covered, defaultSubjects.
    cbn [existsb Server.start Server.end_ snd].
    rewrite (proj2 (Nat.leb_gt questionNum 20)), (proj2 (Nat.leb_gt questionNum 40)),
      (proj2 (Nat.leb_gt questionNum 60)), (proj2 (Nat.leb_gt questionNum 80)),
      (proj2 (Nat.leb_gt questionNum 100)) by lia.
    by rewrite !andb_false_r.
Qed.

(** ** The two scoring routines on the same sheet *)

(** X15. On a sheet numbered from 1, scored by [evaluateAnswers] with
    the key of the exam set and the default subject table and by
    [evaluateResponses] with the detected answers as responses, the two
    entries of every question agree on the question number, the
    subject, the answer and the key's answer, and, when the question has
    no special case, on the mark. *)
Theorem routines_agree_off_special_cases (bubbles : list Server.Bubble)
    (examSet : string) (answers : list string) (r : EvaluationResult)
    (r' : Server.Evaluation) :
  rawAnswers (answerKeyOf examSet) = Some answers ->
  (forall k b, bubbles !! k = Some b -> Server.questionNumber b = k + 1) ->
  evaluateResponses (Server.detectedAnswer <$> bubbles) examSet = Returned r ->
  Server.evaluateAnswers bubbles answers (Some defaultSubjects) = Returned r' ->
  forall k e d,
    Server.evaluation r' !! k = Some e ->
    detailedResults r !! k = Some d ->
    Server.Evaluated.questionNumber e = questionNumber d
    ∧ Server.Evaluated.subject e = subject d
    ∧ Server.Evaluated.studentAnswer e = studentAnswer d
    ∧ Some (Server.Evaluated.correctAnswer e) = correctAnswer d
    ∧ (specialCasesOf examSet !! Js.toString (k + 1) = None ->
       Server.Evaluated.isCorrect e = isCorrect d).
Proof.
  intros Ha Hnum Hr Hr' k e d He Hd.
  destruct (Js.inherited examSet) eqn:Hn.
  { rewrite (evaluateResponses_inherited _ _ Hn) in Hr. discriminate Hr. }
  destruct (evaluateResponses_returned _ _ _ Hr) as (answers' & Ha' & _ & Hds & _).
  rewrite Ha in Ha'. injection Ha' as <-.
  destruct (answerKeyOf_facts _ Hn) as [(answers' & Ha' & Hlen & Hch) _].
  rewrite Ha in Ha'. injection Ha' as <-.
  destruct (evaluateAnswers_returned _ _ _ _ Hr') as (_ & _ & Hle).
  destruct (evaluateAnswers_spec bubbles answers defaultSubjects Hle)
    as (r'' & Hr'' & Hes & _).
  rewrite Hr' in Hr''. injection Hr'' as <-.
  rewrite Hes in He. unfold entriesOf in He. rewrite lookup_zip_with in He.
  destruct (answers !! k) as [a|] eqn:Hak; [|discriminate].
  destruct (bubbles !! k) as [b|] eqn:Hbk; [|discriminate].
  cbn in He. injection He as <-.
  assert (k < 100) as Hk by (apply lookup_lt_Some in Hak; lia).
  rewrite Hds, detailAt_lookup in Hd by done. injection Hd as <-.
  assert ((Server.detectedAnswer <$> bubbles) !! k = Some (Server.detectedAnswer b))
    as Hresp by (by rewrite list_lookup_fmap, Hbk).
  cbn [entryAt detailAt questionNumber subject studentAnswer correctAnswer isCorrect
       Server.Evaluated.questionNumber Server.Evaluated.subject
       Server.Evaluated.studentAnswer Server.Evaluated.correctAnswer
       Server.Evaluated.isCorrect].
  rewrite (Hnum _ _ Hbk), Hresp, Hak.
  split; [reflexivity|]. split.
  { assert (Forall (fun q => Server.findSubject defaultSubjects q
                             = getSubjectForQuestion q) (seq 0 101)) as Hall.
    { apply (bool_decide_unpack _). vm_compute. reflexivity. }
    rewrite Forall_forall in Hall. apply Hall, elem_of_seq. lia. }
  split; [reflexivity|]. split; [reflexivity|].
  intros Hnone.
  destruct (isBlank (Server.detectedAnswer b)) eqn:Hb.
  - rewrite (markAt_blank _ _ _ _ _ Hresp Hb).
    apply bool_decide_eq_false. intros Heq.
    assert (a ∈ choices) as Hach.
    { rewrite Forall_forall in Hch. apply Hch. by eapply list_elem_of_lookup_2. }
    rewrite (toLowerCase_choice a Hach) in Heq.
    assert (Js.toLowerCase (Server.detectedAnswer b) ∈ choices) as Hin
      by (by rewrite Heq).
    rewrite (toLowerCase_choice_not_blank _ Hin) in Hb. discriminate.
  - by rewrite (markAt_plain _ _ _ _ _ _ Hresp Hnone Hak Hb).
Qed.

(** Two bubbles numbered 1 and 2, answered ["B"] and ["x"]. *)
Lemma routines_agree_off_special_cases_witness :
  exists r r' e d,
    evaluateResponses ["B"; "x"] "setA" = Returned r
    ∧ Server.evaluateAnswers
        [ {| Server.questionNumber := 1; Server.detectedAnswer := "B";
             Server.confidence := 0.5%float; Server.subject := "Python" |};
          {| Server.questionNumber := 2; Server.detectedAnswer := "x";
             Server.confidence := 0.5%float; Server.subject := "Python" |} ]
        perfectSheetA (Some defaultSubjects) = Returned r'
    ∧ Server.evaluation r' !! 0 = Some e
    ∧ detailedResults r !! 0 = Some d
    ∧ Server.Evaluated.subject e = subject d
    ∧ Server.Evaluated.isCorrect e = isCorrect d.
Proof.
  set (bubbles :=
        [ {| Server.questionNumber := 1; Server.detectedAnswer := "B";
             Server.confidence := 0.5%float; Server.subject := "Python" |};
          {| Server.questionNumber := 2; Server.detectedAnswer := "x";
             Server.confidence := 0.5%float; Server.subject := "Python" |} ]).
  assert (exists r r' e d,
            evaluateResponses (Server.detectedAnswer <$> bubbles) "setA" = Returned r
            ∧ Server.evaluateAnswers bubbles perfectSheetA (Some defaultSubjects)
              = Returned r'
            ∧ Server.evaluation r' !! 0 = Some e
            ∧ detailedResults r !! 0 = Some d)
    as (r & r' & e & d & Hr & Hr' & He & Hd).
  { eexists _, _, _, _. split; [vm_compute; reflexivity|].
    split; [vm_compute; reflexivity|]. split; reflexivity. }
  assert (forall k b, bubbles !! k = Some b -> Server.questionNumber b = k + 1)
    as Hnum.
  { intros [|[|k]] b Hb; [by injection Hb as <-|by injection Hb as <-|discriminate Hb]. }
  destruct (routines_agree_off_special_cases bubbles "setA" perfectSheetA r r'
              eq_refl Hnum Hr Hr' 0 e d He Hd) as (_ & Hs & _ & _ & Hc).
  exists r, r', e, d. split; [exact Hr|]. split; [exact Hr'|].
  split; [exact He|]. split; [exact Hd|]. split; [exact Hs|].
  apply Hc. vm_compute. reflexivity.
Defined.

(** ** [simulateOMRProcessing] *)

Lemma at_index_elem {A : Type} (l : list A) k x :
  Simulation.at_index l k = Some x -> x ∈ l.
Proof.
  unfold Simulation.at_index. destruct k as [k|]; [|discriminate].
  destruct (_ <? _)%Z; [|discriminate]. apply list_elem_of_lookup_2.
Qed.

(** The key the simulation reads is that of set A or of set B. *)
Lemma simulatedCorrectAnswers_cases examSet :
  simulatedCorrectAnswers examSet = rawAnswers setA
  ∨ simulatedCorrectAnswers examSet = rawAnswers setB.
Proof.
  unfold simulatedCorrectAnswers, getProperty. rewrite answerKeys_lookup.
  repeat case_decide; auto. destruct (Js.inherited examSet); auto.
Qed.

Lemma simulatedCorrectAnswers_facts examSet :
  exists key,
    simulatedCorrectAnswers examSet = Some key
    ∧ length key = 100
    ∧ Forall (fun a => a ∈ Simulation.options) key.
Proof.
  destruct (simulatedCorrectAnswers_cases examSet) as [-> | ->];
    [destruct setA_facts as [(key & Hk & Hl & Hc) _]
    |destruct setB_facts as [(key & Hk & Hl & Hc) _]];
    exists key; auto.
Qed.

(** One iteration: the response is the key's answer and one value is
    drawn, or it is another option (or [undefined]) and two are. *)
Lemma simulateQuestion_step random key responses drawn i a :
  key !! i = Some a ->
  exists x drawn',
    Simulation.simulateQuestion random key (responses, drawn) i
      = Returned (responses ++ [x], drawn')
    ∧ ((PrimFloat.ltb (random drawn) Simulation.accuracy = true
        ∧ x = Some a ∧ drawn' = S drawn)
       ∨ (PrimFloat.ltb (random drawn) Simulation.accuracy = false
          ∧ x <> Some a ∧ optionOrUndefined x ∧ drawn' = S (S drawn))).
Proof.
  intros Ha. unfold Simulation.simulateQuestion. rewrite Ha.
  destruct (PrimFloat.ltb (random drawn) Simulation.accuracy).
  - eexists _, _. split; [reflexivity|]. by left.
  - eexists _, _. split; [reflexivity|]. right. split; [done|].
    match goal with |- context [Simulation.at_index ?l ?k] =>
      destruct (Simulation.at_index l k) as [s|] eqn:Hs end.
    + apply at_index_elem in Hs. apply list_elem_of_filter in Hs as [Hne Hin].
      split; [done|]. split; [exact Hin|reflexivity].
    + split; [discriminate|]. split; [exact I|reflexivity].
Qed.

Lemma mismatches_snoc responses key x a :
  key !! length responses = Some a ->
  mismatches (responses ++ [x]) key
  = mismatches responses key + (if decide (x = Some a) then 0 else 1).
Proof.
  intros Ha. unfold mismatches.
  rewrite <- (take_drop_middle key (length responses) a Ha) at 1.
  assert (length responses = length (take (length responses) key)) as Hlen.
  { rewrite length_take. apply lookup_lt_Some in Ha. lia. }
  rewrite zip_with_app by done. cbn [zip_with].
  rewrite filter_app, length_app, filter_cons, filter_nil. cbn [fst snd].
  assert (zip responses (take (length responses) key) = zip responses key) as ->.
  { by rewrite zip_with_take_r. }
  f_equal. repeat case_decide; try done; cbn.
Qed.

(** The loop from question [length responses + 1] on. *)
Lemma simulate_loop random key m :
  Forall (fun a => a ∈ Simulation.options) key ->
  forall responses drawn,
    length responses + m <= length key ->
    Forall optionOrUndefined responses ->
    exists responses' drawn',
      forLoop (Simulation.simulateQuestion random key)
              (seq (length responses) m) (responses, drawn)
        = Returned (responses', drawn')
      ∧ length responses' = length responses + m
      ∧ Forall optionOrUndefined responses'
      ∧ drawn' + mismatches responses key
        = drawn + m + mismatches responses' key.
Proof.
  intros Hkey. induction m as [|m IH]; intros responses drawn Hlen Hok.
  - exists responses, drawn. cbn. repeat split; try done; lia.
  - destruct (lookup_lt_is_Some_2 key (length responses)) as [a Ha]; [lia|].
    destruct (simulateQuestion_step random key responses drawn _ a Ha)
      as (x & drawn1 & Hstep & Hcase).
    cbn [seq forLoop]. rewrite Hstep. cbn [mbind Outcome_bind].
    assert (optionOrUndefined x) as Hx.
    { destruct Hcase as [(_ & -> & _)|(_ & _ & Hx & _)]; [|done].
      cbn. rewrite Forall_forall in Hkey. apply Hkey.
      by eapply list_elem_of_lookup_2. }
    destruct (IH (responses ++ [x]) drawn1) as (responses' & drawn' & Hloop & Hl & Hf & Hd).
    { rewrite length_app. cbn. lia. }
    { apply Forall_app. split; [done|]. by apply Forall_singleton. }
    rewrite length_app in Hloop, Hl. cbn [length] in Hloop, Hl.
    replace (length responses + 1) with (S (length responses)) in Hloop by lia.
    exists responses', drawn'. split; [exact Hloop|]. split; [lia|]. split; [done|].
    rewrite (mismatches_snoc _ _ _ _ Ha) in Hd.
    destruct Hcase as [(_ & -> & ->)|(_ & Hne & _ & ->)].
    + rewrite decide_True in Hd by done. lia.
    + rewrite decide_False in Hd by done. lia.
Qed.

(** The loop when the draws it reads are all below the threshold. *)
Lemma simulate_loop_accurate random key n m :
  (forall k, k < n -> PrimFloat.ltb (random k) Simulation.accuracy = true) ->
  forall responses drawn,
    length responses + m <= length key ->
    drawn + m <= n ->
    forLoop (Simulation.simulateQuestion random key)
            (seq (length responses) m) (responses, drawn)
    = Returned (responses ++ (Some <$> take m (drop (length responses) key)),
                drawn + m).
Proof.
  intros Hacc. induction m as [|m IH]; intros responses drawn Hlen Hn.
  - cbn. by rewrite app_nil_r, Nat.add_0_r.
  - destruct (lookup_lt_is_Some_2 key (length responses)) as [a Ha]; [lia|].
    assert (Simulation.simulateQuestion random key (responses, drawn)
              (length responses)
            = Returned (responses ++ [Some a], S drawn)) as Hstep.
    { unfold Simulation.simulateQuestion. cbn beta iota.
      rewrite Hacc by lia. by rewrite Ha. }
    cbn [seq forLoop]. rewrite Hstep. cbn [mbind Outcome_bind].
    specialize (IH (responses ++ [Some a]) (S drawn)).
    rewrite length_app in IH. cbn [length] in IH.
    replace (length responses + 1) with (S (length responses)) in IH by lia.
    rewrite IH by lia.
    rewrite (drop_S _ _ _ Ha). cbn [take fmap list_fmap].
    rewrite <- app_assoc. cbn. do 2 f_equal. lia.
Qed.

(** X16. For every exam-set name, inherited ones included, and every
    sequence of random values, [simulateOMRProcessing] returns exactly
    100 responses, each one of the four options or [undefined]; it
    draws one random value per question and one more for each response
    that differs from the key's answer. *)
Theorem simulation_returns_100_options (random : nat -> float) (examSet : string) :
  exists key responses drawn,
    simulatedCorrectAnswers examSet = Some key
    ∧ Simulation.simulateOMRProcessing random examSet = Returned (responses, drawn)
    ∧ length responses = 100
    ∧ Forall optionOrUndefined responses
    ∧ drawn = 100 + mismatches responses key.
Proof.
  destruct (simulatedCorrectAnswers_facts examSet) as (key & Hk & Hlen & Hopts).
  destruct (simulate_loop random key 100 Hopts [] 0) as (responses & drawn & Hl & Hn & Hf & Hd);
    [cbn; lia|constructor|].
  exists key, responses, drawn. split; [exact Hk|].
  unfold Simulation.simulateOMRProcessing. rewrite Hk.
  split; [exact Hl|]. split; [exact Hn|]. split; [exact Hf|].
  assert (mismatches [] key = 0) as H0 by reflexivity.
  rewrite H0 in Hd. lia.
Qed.

(** X17. When the first 100 random values are all below 0.85, the
    simulated responses are the answers of the key, in order, and
    exactly those 100 values are drawn. *)
Theorem accurate_simulation_is_the_key (random : nat -> float) (examSet : string) :
  (forall k, k < 100 -> PrimFloat.ltb (random k) Simulation.accuracy = true) ->
  exists key,
    simulatedCorrectAnswers examSet = Some key
    ∧ Simulation.simulateOMRProcessing random examSet
      = Returned (Some <$> key, 100).
Proof.
  intros Hacc.
  destruct (simulatedCorrectAnswers_facts examSet) as (key & Hk & Hlen & _).
  exists key. split; [exact Hk|].
  unfold Simulation.simulateOMRProcessing. rewrite Hk.
  pose proof (simulate_loop_accurate random key 100 100 Hacc [] 0) as Hloop.
  cbn [length app] in Hloop. rewrite Hloop by lia.
  rewrite drop_0, take_ge by lia. reflexivity.
Qed.

Lemma accurate_simulation_is_the_key_witness :
  (forall k : nat, k < 100 ->
     PrimFloat.ltb ((fun _ => 0.5%float) k) Simulation.accuracy = true)
  ∧ exists key,
      simulatedCorrectAnswers "setB" = Some key
      ∧ Simulation.simulateOMRProcessing (fun _ => 0.5%float) "setB"
        = Returned (Some <$> key, 100).
Proof.
  split; [reflexivity|].
  apply (accurate_simulation_is_the_key (fun _ => 0.5%float) "setB"). reflexivity.
Defined.

(** ** The OMR-processing handler *)

(** Off the inherited names both functions read the same key. *)
Lemma simulatedCorrectAnswers_answerKeyOf examSet :
  Js.inherited examSet = false ->
  simulatedCorrectAnswers examSet = rawAnswers (answerKeyOf examSet).
Proof.
  intros Hn. unfold simulatedCorrectAnswers, answerKeyOf, getProperty.
  rewrite answerKeys_lookup, Hn. repeat case_decide; reflexivity.
Qed.

(** The simulation always returns. *)
Lemma simulateOMRProcessing_returns random examSet :
  exists key responses drawn,
    simulatedCorrectAnswers examSet = Some key
    ∧ length key = 100
    ∧ Forall (fun a => a ∈ choices) key
    ∧ Simulation.simulateOMRProcessing random examSet = Returned (responses, drawn)
    ∧ length responses = 100
    ∧ Forall optionOrUndefined responses.
Proof.
  destruct (simulatedCorrectAnswers_facts examSet) as (key & Hk & Hlen & Hopts).
  destruct (simulate_loop random key 100 Hopts [] 0)
    as (responses & drawn & Hl & Hn & Hf & _); [cbn; lia|constructor|].
  exists key, responses, drawn. unfold Simulation.simulateOMRProcessing.
  rewrite Hk. auto 10.
Qed.

(** X18. The status of the processing handler's response does not
    depend on the random values or on the clock: 200 for [OPTIONS],
    405 for every other method but [POST], and for a [POST] 500 when
    the form data cannot be parsed or the exam set (["setA"] when the
    field is missing or empty) is the name of an inherited property,
    200 otherwise. *)
Theorem processing_status_codes (httpMethod : string)
    (parsed : option Processing.Parsed) (random : nat -> float) (now : string) :
  Processing.statusCode (Processing.handler httpMethod parsed random now)
  = if Js.strictEq httpMethod "OPTIONS" then 200
    else if Js.strictEq httpMethod "POST" then
      match parsed with
      | None => 500
      | Some result =>
          if Js.inherited (Processing.orElse (Processing.examSet result) "setA")
          then 500 else 200
      end
    else 405.
Proof.
  unfold Processing.handler.
  destruct (Js.strictEq httpMethod "OPTIONS"); [reflexivity|].
  destruct (Js.strictEq httpMethod "POST"); [|reflexivity]. cbn [negb].
  destruct parsed as [result|]; [|reflexivity]. cbn zeta.
  set (examSet := Processing.orElse _ _).
  destruct (simulateOMRProcessing_returns random examSet)
    as (key & responses & drawn & _ & _ & _ & -> & _).
  destruct (Js.inherited examSet) eqn:Hi.
  - by rewrite (evaluateResponses_inherited _ _ Hi).
  - destruct (evaluateResponses_returns (Processing.asResponses responses) examSet Hi)
      as (answers & r & _ & _ & -> & _). reflexivity.
Qed.

(** The special cases are those of questions 16 and 59. *)
Lemma specialCasesOf_lookup examSet i :
  Js.inherited examSet = false -> i < 100 ->
  specialCasesOf examSet !! Js.toString (i + 1)
  = if decide (i = 15) then Some {| acceptedAnswers := ["a"; "b"; "c"; "d"] |}
    else if decide (i = 58) then Some {| acceptedAnswers := ["a"; "b"] |}
    else None.
Proof.
  intros Hn Hi. unfold specialCasesOf.
  assert (Forall (fun i =>
            forall key, key = setA ∨ key = setB ->
              default ∅ (specialCases key) !! Js.toString (i + 1)
              = if decide (i = 15)
                then Some {| acceptedAnswers := ["a"; "b"; "c"; "d"] |}
                else if decide (i = 58)
                     then Some {| acceptedAnswers := ["a"; "b"] |}
                     else None) (seq 0 100)) as Hall.
  { cbn [seq].
    repeat (apply List.Forall_cons;
            [intros key [-> | ->]; vm_compute; reflexivity|]).
    apply List.Forall_nil. }
  rewrite Forall_forall in Hall. apply Hall.
  - apply elem_of_seq. lia.
  - by apply answerKeyOf_own.
Qed.

(** The mark of a simulated response. *)
Lemma markAt_simulated answers specialCases responses i x a :
  responses !! i = Some x -> optionOrUndefined x ->
  answers !! i = Some a -> a ∈ choices ->
  markAt answers specialCases (Processing.asResponses responses) i
  = match x with
    | None => false
    | Some s =>
        match specialCases !! Js.toString (i + 1) with
        | Some case => Js.includes (acceptedAnswers case) s
        | None => bool_decide (s = a)
        end
    end.
Proof.
  intros Hx Hopt Ha Hin. unfold markAt, Processing.asResponses.
  rewrite list_lookup_fmap, Hx, Ha. cbn [fmap option_fmap option_map default].
  destruct x as [s|]; [|reflexivity]. cbn [default]. unfold id.
  cbn in Hopt. change (s ∈ choices) in Hopt.
  rewrite (toLowerCase_choice s Hopt), (toLowerCase_choice a Hin).
  assert (isBlank s = false) as ->.
  { apply toLowerCase_choice_not_blank. by rewrite toLowerCase_choice. }
  reflexivity.
Qed.

(** X19. A [POST] with an exam set that is not an inherited name is
    answered with 100 detected responses and their evaluation: the
    record of a question reports the detected response ([""] for
    [undefined]) beside the key's answer, and it is correct exactly
    when the simulation took the response from the key; apart from
    question 16, correct for every defined response, and question 59,
    correct for ["a"] and ["b"]. *)
Theorem processing_marks_simulated_errors (result : Processing.Parsed)
    (random : nat -> float) (now : string) :
  let examSet := Processing.orElse (Processing.examSet result) "setA" in
  Js.inherited examSet = false ->
  exists key results,
    simulatedCorrectAnswers examSet = Some key
    ∧ Processing.body (Processing.handler "POST" (Some result) random now)
      = Processing.Processed results
    ∧ Processing.resultExamSet results = examSet
    ∧ length (Processing.detectedResponses results) = 100
    ∧ length (detailedResults (Processing.evaluation results)) = 100
    ∧ forall i x d,
        Processing.detectedResponses results !! i = Some x ->
        detailedResults (Processing.evaluation results) !! i = Some d ->
        studentAnswer d = default "" x
        ∧ correctAnswer d = key !! i
        ∧ (isCorrect d = true <->
           if decide (i = 15) then x <> None
           else if decide (i = 58) then x = Some "a" ∨ x = Some "b"
           else x = key !! i).
Proof.
  intros examSet Hn.
  destruct (simulateOMRProcessing_returns random examSet)
    as (key & responses & drawn & Hk & Hlen & Hkey & Hsim & Hl & Hopt).
  destruct (evaluateResponses_returns (Processing.asResponses responses) examSet Hn)
    as (answers & r & Ha & _ & Hr & _ & Hd & _).
  rewrite <- (simulatedCorrectAnswers_answerKeyOf _ Hn), Hk in Ha.
  injection Ha as <-.
  exists key. eexists. split; [exact Hk|].
  unfold Processing.handler. cbn -[Simulation.simulateOMRProcessing evaluateResponses].
  fold examSet. rewrite Hsim, Hr. cbn.
  split; [reflexivity|]. split; [reflexivity|].
  cbn [Processing.evaluation Processing.detectedResponses].
  split; [exact Hl|].
  split; [by rewrite Hd, length_fmap, length_seq|].
  intros i x d Hx. rewrite Hd, list_lookup_fmap.
  assert (i < 100) as Hi by (apply lookup_lt_Some in Hx; lia).
  rewrite (lookup_seq_lt 0 100 i Hi). cbn. intros [= <-]. cbn.
  destruct (lookup_lt_is_Some_2 key i) as [a Hka]; [lia|].
  assert (a ∈ choices) as Hach.
  { rewrite Forall_forall in Hkey. apply Hkey. by eapply list_elem_of_lookup_2. }
  assert (optionOrUndefined x) as Hox.
  { rewrite Forall_forall in Hopt. apply Hopt. by eapply list_elem_of_lookup_2. }
  split.
  { unfold Processing.asResponses. by rewrite list_lookup_fmap, Hx. }
  split; [reflexivity|].
  rewrite (markAt_simulated _ _ _ _ x a Hx Hox Hka Hach).
  rewrite (specialCasesOf_lookup examSet i Hn Hi), Hka.
  destruct x as [s|].
  - cbn in Hox. change (s ∈ choices) in Hox.
    destruct (decide (i = 15)); [|destruct (decide (i = 58))];
      cbn [acceptedAnswers].
    + split; [done|]. intros _. unfold Js.includes.
      apply bool_decide_eq_true. exact Hox.
    + unfold Js.includes. rewrite bool_decide_eq_true.
      rewrite !elem_of_cons, elem_of_nil. split.
      * intros [->|[->|[]]]; auto.
      * intros [[= ->]|[= ->]]; auto.
    + rewrite bool_decide_eq_true. split; [by intros ->|by intros [= ->]].
  - destruct (decide (i = 15)); [|destruct (decide (i = 58))];
      split; try done. by intros [|].
Qed.

Lemma processing_marks_simulated_errors_witness :
  let result := {| Processing.files := None; Processing.examSet := Some "setB" |} in
  let random := fun k : nat => if Nat.even k then 0.875%float else 0.5%float in
  Js.inherited (Processing.orElse (Processing.examSet result) "setA") = false
  ∧ exists key results,
      simulatedCorrectAnswers "setB" = Some key
      ∧ Processing.body (Processing.handler "POST" (Some result) random "t")
        = Processing.Processed results
      ∧ Processing.resultExamSet results = "setB"
      ∧ length (Processing.detectedResponses results) = 100
      ∧ length (detailedResults (Processing.evaluation results)) = 100
      ∧ forall i x d,
          Processing.detectedResponses results !! i = Some x ->
          detailedResults (Processing.evaluation results) !! i = Some d ->
          studentAnswer d = default "" x
          ∧ correctAnswer d = key !! i
          ∧ (isCorrect d = true <->
             if decide (i = 15) then x <> None
             else if decide (i = 58) then x = Some "a" ∨ x = Some "b"
             else x = key !! i).
Proof.
  intros result random. split; [reflexivity|].
  apply (processing_marks_simulated_errors result random "t"). reflexivity.
Defined.

(** ** The file-upload handler *)

(** A decimal numeral has no ["-"] in it. *)
Lemma pretty_N_go_no_dash (x : N) (s : string) :
  Forall (fun c => c <> "-"%char) (list_ascii_of_string s) ->
  Forall (fun c => c <> "-"%char) (list_ascii_of_string (pretty_N_go x s)).
Proof.
  revert s. induction (N.lt_wf_0 x) as [x _ IH]; intros s Hs.
  assert (x = 0 ∨ 0 < x)%N as [->|Hx] by lia.
  - by rewrite pretty_N_go_0.
  - rewrite pretty_N_go_step by done. apply IH.
    { by apply N.div_lt. }
    cbn [list_ascii_of_string]. apply Forall_cons. split; [|exact Hs].
    unfold pretty_N_char. by repeat case_match.
Qed.

Lemma toString_no_dash (n : nat) :
  Forall (fun c => c <> "-"%char) (list_ascii_of_string (Js.toString n)).
Proof.
  unfold Js.toString, pretty, pretty_nat, pretty, pretty_N.
  case_decide.
  - cbn. apply Forall_cons. split; [done|constructor].
  - apply pretty_N_go_no_dash. constructor.
Qed.

(** Two strings with a ["-"] after a dash-free part are equal only if
    their parts are. *)
Lemma split_at_dash (a b c d : string) :
  Forall (fun c => c <> "-"%char) (list_ascii_of_string a) ->
  Forall (fun c => c <> "-"%char) (list_ascii_of_string c) ->
  a +:+ "-" +:+ b = c +:+ "-" +:+ d -> a = c ∧ b = d.
Proof.
  revert c. induction a as [|x a IH]; intros [|y c] Ha Hc Heq; cbn in *.
  - injection Heq as Heq. by subst.
  - injection Heq as Hy _. apply Forall_cons in Hc as [Hc _]. by subst.
  - injection Heq as Hx _. apply Forall_cons in Ha as [Ha _]. by subst.
  - injection Heq as Hxy Heq. apply Forall_cons in Ha as [_ Ha].
    apply Forall_cons in Hc as [_ Hc].
    destruct (IH c Ha Hc Heq) as [Hac Hbd]. by subst.
Qed.

Lemma processFile_id_inj clock examId i j f g :
  Upload.Processed.id (Upload.processFile clock examId i f)
  = Upload.Processed.id (Upload.processFile clock examId j g) ->
  i = j.
Proof.
  cbn. intros [= Heq].
  apply split_at_dash in Heq as [_ Heq]; try apply toString_no_dash.
  by apply (inj pretty) in Heq.
Qed.

Lemma orElse_nonempty x fallback :
  fallback <> "" -> Processing.orElse x fallback <> "".
Proof.
  intros Hf. unfold Processing.orElse, Js.strictEq.
  destruct x as [s|]; [|done]. by case_bool_decide.
Qed.

(** X20. A [POST] whose form data parse is answered with one entry per
    file, in order, under identifiers that are pairwise distinct
    whatever the clock returns; every entry has a non-empty file name,
    which is also its original name and the end of its path, a
    non-empty MIME type and the exam id of the response. *)
Theorem upload_entries (result : Upload.Parsed) (clock : nat -> nat)
    (now : string) :
  exists message processedFiles examId,
    Upload.handler "POST" (Some result) clock now
    = {| Upload.statusCode := 200;
         Upload.body := Upload.Uploaded message processedFiles examId now |}
    ∧ examId <> ""
    ∧ length processedFiles = length (default [] (Upload.files result))
    ∧ NoDup (Upload.Processed.id <$> processedFiles)
    ∧ forall i p,
        processedFiles !! i = Some p ->
        Upload.Processed.filename p <> ""
        ∧ Upload.Processed.originalname p = Upload.Processed.filename p
        ∧ Upload.Processed.path p = "/uploads/" +:+ Upload.Processed.filename p
        ∧ Upload.Processed.mimetype p <> ""
        ∧ Upload.Processed.examId p = examId.
Proof.
  eexists _, _, _. split; [reflexivity|].
  split; [by apply orElse_nonempty|].
  split; [by rewrite length_imap|].
  split.
  - apply NoDup_alt. intros i j x.
    rewrite !list_lookup_fmap, !list_lookup_imap.
    destruct (_ !! i) as [f|]; [|discriminate].
    destruct (_ !! j) as [g|]; [|discriminate].
    cbn -[Upload.processFile]. intros Hi Hj. rewrite <- Hj in Hi.
    apply (inj Some) in Hi. by apply processFile_id_inj in Hi.
  - intros i p. rewrite list_lookup_imap.
    destruct (_ !! i) as [f|]; [|discriminate]. intros [= <-].
    cbn -[Processing.orElse]. split; [by apply orElse_nonempty|].
    split; [reflexivity|]. split; [reflexivity|].
    split; [by apply orElse_nonempty|reflexivity].
Qed.

(** ** The exam table *)

Lemma findIndex_None id' exams :
  Exams.findIndex id' exams = None <-> id' ∉ Exams.id <$> exams.
Proof.
  unfold Exams.findIndex. rewrite fmap_None, list_find_None, list_elem_of_fmap.
  rewrite Forall_forall. split.
  - intros H (e & -> & He). by apply (H e).
  - intros H e He Heq. apply H. by exists e.
Qed.

Lemma findIndex_Some id' exams k :
  Exams.findIndex id' exams = Some k ->
  exists e, exams !! k = Some e ∧ Exams.id e = id'
    ∧ forall j e', exams !! j = Some e' -> j < k -> Exams.id e' <> id'.
Proof.
  unfold Exams.findIndex. rewrite fmap_Some. intros ([k' e] & Hf & ->).
  apply list_find_Some in Hf as (He & Hid & Hbefore). by exists e.
Qed.

(** In a table without duplicate ids, the exam found is the only one
    with its id. *)
Lemma findIndex_unique id' exams k e j :
  NoDup (Exams.id <$> exams) ->
  Exams.findIndex id' exams = Some k ->
  exams !! j = Some e -> Exams.id e = id' -> j = k.
Proof.
  intros Hnd Hk He Hid.
  apply findIndex_Some in Hk as (e' & He' & Hid' & _).
  rewrite NoDup_alt in Hnd. apply (Hnd j k id').
  - by rewrite list_lookup_fmap, He; cbn; rewrite Hid.
  - by rewrite list_lookup_fmap, He'; cbn; rewrite Hid'.
Qed.

Lemma filter_all {A : Type} (P : A -> Prop) `{forall x, Decision (P x)}
    (l : list A) :
  Forall P l -> filter P l = l.
Proof.
  induction 1 as [|x l Hx _ IH]; [reflexivity|].
  by rewrite filter_cons_True, IH.
Qed.

Lemma delete_as_filter id' exams k :
  NoDup (Exams.id <$> exams) ->
  Exams.findIndex id' exams = Some k ->
  delete k exams = filter (fun e => Exams.id e <> id') exams.
Proof.
  revert k. induction exams as [|e exams IH]; intros k Hnd Hk.
  - discriminate Hk.
  - rewrite fmap_cons in Hnd. apply NoDup_cons in Hnd as [Hnotin Hnd].
    rewrite filter_cons. destruct k as [|k].
    + apply findIndex_Some in Hk as (e' & [= <-] & Hid & _).
      rewrite decide_False by (intros H; by apply H).
      cbn. symmetry. apply filter_all, Forall_forall.
      intros x Hx Heq. apply Hnotin. rewrite Hid, <- Heq.
      by apply list_elem_of_fmap_2.
    + pose proof (findIndex_Some _ _ _ Hk) as (e' & He' & Hid & Hbefore).
      assert (Exams.id e <> id') as Hne.
      { apply (Hbefore 0 e); [reflexivity|lia]. }
      rewrite decide_True by done. cbn. f_equal. apply IH; [done|].
      unfold Exams.findIndex in *. cbn in Hk.
      rewrite decide_False in Hk by done.
      destruct (list_find _ exams) as [[k' x]|]; [|discriminate].
      cbn in Hk. injection Hk as ->. reflexivity.
Qed.

(** X21. On a table without duplicate ids, [DELETE /api/exams/:id]
    answers 404 and leaves the table as it is when no exam has the id;
    otherwise it answers 200 and the table is left without the exams
    of that id, the others kept in order. *)
Theorem delete_removes_the_exam (id' : string) (exams : list Exams.Exam) :
  NoDup (Exams.id <$> exams) ->
  Exams.deleteExam id' exams
  = if bool_decide (id' ∈ Exams.id <$> exams)
    then ({| Exams.statusCode := 200;
             Exams.body := Exams.Message "Exam deleted successfully" |},
          filter (fun e => Exams.id e <> id') exams)
    else ({| Exams.statusCode := 404;
             Exams.body := Exams.ErrorMessage "Exam not found" |},
          exams).
Proof.
  intros Hnd. unfold Exams.deleteExam.
  destruct (Exams.findIndex id' exams) as [k|] eqn:Hk.
  - rewrite bool_decide_eq_true_2.
    + by rewrite (delete_as_filter _ _ _ Hnd Hk).
    + apply findIndex_Some in Hk as (e & He & <- & _).
      apply list_elem_of_fmap_2. by eapply list_elem_of_lookup_2.
  - rewrite bool_decide_eq_false_2; [reflexivity|]. by apply findIndex_None.
Qed.

Lemma delete_removes_the_exam_witness :
  NoDup (Exams.id <$> initialExams ["A"] "t")
  ∧ Exams.deleteExam "1" (initialExams ["A"] "t")
    = ({| Exams.statusCode := 200;
          Exams.body := Exams.Message "Exam deleted successfully" |}, []).
Proof.
  assert (NoDup (Exams.id <$> initialExams ["A"] "t")) as Hnd.
  { apply NoDup_singleton. }
  split; [exact Hnd|].
  exact (delete_removes_the_exam "1" (initialExams ["A"] "t") Hnd).
Defined.

Lemma alter_as_fmap key id' exams k :
  NoDup (Exams.id <$> exams) ->
  Exams.findIndex id' exams = Some k ->
  alter (Exams.setAnswerKey key) k exams
  = (fun e => if decide (Exams.id e = id') then Exams.setAnswerKey key e else e)
      <$> exams.
Proof.
  intros Hnd Hk. apply list_eq. intros j.
  rewrite list_lookup_fmap.
  destruct (decide (j = k)) as [->|Hne].
  - rewrite list_lookup_alter.
    apply findIndex_Some in Hk as (e & -> & Hid & _).
    cbn [fmap option_fmap option_map]. by rewrite !decide_True.
  - rewrite list_lookup_alter_ne by done.
    destruct (exams !! j) as [e|] eqn:He; [|reflexivity].
    cbn [fmap option_fmap option_map].
    rewrite decide_False; [reflexivity|].
    intros Hid. apply Hne. by eapply findIndex_unique.
Qed.

(** X22. On a table without duplicate ids,
    [PUT /api/exams/:id/answerkey] answers 404 when no exam has the id,
    whatever the body; 400 when one has and the body's key is not an
    array; in both cases the table is left as it is. Otherwise it
    answers 200 and the exam of that id gets the key, of whatever
    length, with its other fields (the number of questions among them)
    and the other exams left as they are. *)
Theorem answer_key_update (id' : string) (answerKey : option (list string))
    (exams : list Exams.Exam) :
  NoDup (Exams.id <$> exams) ->
  Exams.updateAnswerKey id' answerKey exams
  = if bool_decide (id' ∈ Exams.id <$> exams)
    then match answerKey with
         | None =>
             ({| Exams.statusCode := 400;
                 Exams.body := Exams.ErrorMessage "Answer key must be an array" |},
              exams)
         | Some key =>
             ({| Exams.statusCode := 200;
                 Exams.body := Exams.Message "Answer key updated successfully" |},
              (fun e =>
                 if decide (Exams.id e = id')
                 then {| Exams.id := Exams.id e;
                         Exams.name := Exams.name e;
                         Exams.subject := Exams.subject e;
                         Exams.totalQuestions := Exams.totalQuestions e;
                         Exams.answerKey := key;
                         Exams.subjects := Exams.subjects e;
                         Exams.createdAt := Exams.createdAt e;
                         Exams.status := Exams.status e |}
                 else e) <$> exams)
         end
    else ({| Exams.statusCode := 404;
             Exams.body := Exams.ErrorMessage "Exam not found" |},
          exams).
Proof.
  intros Hnd. unfold Exams.updateAnswerKey.
  destruct (Exams.findIndex id' exams) as [k|] eqn:Hk.
  - rewrite bool_decide_eq_true_2.
    + destruct answerKey as [key|]; [|reflexivity].
      by rewrite (alter_as_fmap key _ _ _ Hnd Hk).
    + apply findIndex_Some in Hk as (e & He & <- & _).
      apply list_elem_of_fmap_2. by eapply list_elem_of_lookup_2.
  - rewrite bool_decide_eq_false_2; [reflexivity|]. by apply findIndex_None.
Qed.

Lemma answer_key_update_witness :
  NoDup (Exams.id <$> initialExams ["A"] "t")
  ∧ Exams.updateAnswerKey "1" (Some ["b"; "c"]) (initialExams ["A"] "t")
    = ({| Exams.statusCode := 200;
          Exams.body := Exams.Message "Answer key updated successfully" |},
       initialExams ["b"; "c"] "t").
Proof.
  assert (NoDup (Exams.id <$> initialExams ["A"] "t")) as Hnd.
  { apply NoDup_singleton. }
  split; [exact Hnd|].
  exact (answer_key_update "1" (Some ["b"; "c"]) (initialExams ["A"] "t") Hnd).
Defined.

Lemma findIndex_app_fresh id' exams e :
  id' ∉ Exams.id <$> exams -> Exams.id e = id' ->
  Exams.findIndex id' (exams ++ [e]) = Some (length exams).
Proof.
  intros Hfresh Hid. unfold Exams.findIndex.
  apply findIndex_None in Hfresh. unfold Exams.findIndex in Hfresh.
  apply fmap_None in Hfresh.
  rewrite list_find_app_r by done. cbn.
  rewrite decide_True by done. cbn. reflexivity.
Qed.

(** X23. [POST /api/exams] with a name, a subject and a number of
    questions from 1 to [2^32 - 1] answers 201 and appends one exam:
    its id is the clock value in decimal, its key has one ["A"] per
    question, its status is ["draft"] unless given, and it has no
    subject table. When no exam had that id, deleting the id next gives
    back the table as it was. (From [2^32] questions on, the key cannot
    be built and the callback throws.) *)
Theorem create_then_delete (b : Exams.NewExam) (now : nat) (nowIso : string)
    (exams : list Exams.Exam) (n : nat) :
  Exams.missing (Exams.newName b) = false ->
  Exams.missing (Exams.newSubject b) = false ->
  Exams.newTotalQuestions b = Some n ->
  0 < n ->
  (Z.of_nat n < 2 ^ 32)%Z ->
  Js.toString now ∉ Exams.id <$> exams ->
  exists exam,
    Exams.createExam b now nowIso exams
    = Returned ({| Exams.statusCode := 201; Exams.body := Exams.Created exam |},
                exams ++ [exam])
    ∧ Exams.id exam = Js.toString now
    ∧ Exams.totalQuestions exam = n
    ∧ Exams.answerKey exam = replicate n "A"
    ∧ Exams.subjects exam = None
    ∧ Exams.status exam = default "draft" (Exams.newStatus b)
    ∧ Exams.deleteExam (Js.toString now) (exams ++ [exam])
      = ({| Exams.statusCode := 200;
            Exams.body := Exams.Message "Exam deleted successfully" |},
         exams).
Proof.
  intros Hname Hsubject Hnumber Hpos Hmax Hfresh.
  unfold Exams.createExam, Exams.missingNumber, Exams.arrayOfA.
  rewrite Hname, Hsubject, Hnumber. cbn [orb default].
  rewrite (proj2 (Nat.eqb_neq n 0)) by lia. unfold id.
  rewrite (proj2 (Z.ltb_lt _ _) Hmax). cbn [mbind Outcome_bind].
  eexists. split; [reflexivity|]. cbn [Exams.id Exams.totalQuestions
    Exams.answerKey Exams.subjects Exams.status].
  do 5 (split; [reflexivity|]).
  unfold Exams.deleteExam. rewrite (findIndex_app_fresh _ _ _ Hfresh) by reflexivity.
  f_equal. rewrite delete_middle. apply app_nil_r.
Qed.

Lemma create_then_delete_witness :
  let b := {| Exams.newName := Some "Mock"; Exams.newSubject := Some "SQL";
              Exams.newTotalQuestions := Some 3; Exams.newStatus := None |} in
  Exams.missing (Exams.newName b) = false
  ∧ Exams.missing (Exams.newSubject b) = false
  ∧ 0 < 3
  ∧ (Z.of_nat 3 < 2 ^ 32)%Z
  ∧ (Js.toString 1700 ∉ Exams.id <$> initialExams ["A"] "t")
  ∧ exists exam,
      Exams.createExam b 1700 "t2" (initialExams ["A"] "t")
      = Returned ({| Exams.statusCode := 201; Exams.body := Exams.Created exam |},
                  initialExams ["A"] "t" ++ [exam])
      ∧ Exams.id exam = Js.toString 1700
      ∧ Exams.totalQuestions exam = 3
      ∧ Exams.answerKey exam = replicate 3 "A"
      ∧ Exams.subjects exam = None
      ∧ Exams.status exam = default "draft" (Exams.newStatus b)
      ∧ Exams.deleteExam (Js.toString 1700) (initialExams ["A"] "t" ++ [exam])
        = ({| Exams.statusCode := 200;
              Exams.body := Exams.Message "Exam deleted successfully" |},
           initialExams ["A"] "t").
Proof.
  intros b.
  assert (Js.toString 1700 ∉ Exams.id <$> initialExams ["A"] "t") as Hfresh.
  { apply (bool_decide_unpack _). vm_compute. reflexivity. }
  assert (0 < 3) as Hpos by lia.
  assert (Z.of_nat 3 < 2 ^ 32)%Z as Hmax by reflexivity.
  split; [reflexivity|]. split; [reflexivity|]. split; [exact Hpos|].
  split; [exact Hmax|]. split; [exact Hfresh|].
  exact (create_then_delete b 1700 "t2" (initialExams ["A"] "t") 3
           eq_refl eq_refl eq_refl Hpos Hmax Hfresh).
Defined.
